(** * VerifiAI backend: the real-time event distribution subsystem

    A shallow embedding of
    - [backend/src/api/routes/websocket.py]: the [ConnectionManager]
      (connection registry and topic router), the [/connect] endpoint and
      the Redis bridge [publish_via_redis];
    - [backend/src/api/dependencies.py]: [verify_clerk_token] and
      [verify_ws_token] (the session gate);
    - [backend/src/core/redis.py]: [init_redis] and [get_redis].

    Python objects that live outside the repository (sockets, the JWT
    library, the database, the Redis server) are described by an
    environment of oracles; everything the repository's own code does with
    them is written out.

    The handlers run on one asyncio event loop.  A manager call without
    [await] in it runs to its end; the delivery loops, which [await] a send
    at every turn while they hold an iterator over the manager's own
    containers, are interleaved with the calls of the other handlers, given
    by the oracle [others]. *)

From stdpp Require Import gmap strings list fin_maps.
From Stdlib Require Import ZArith.

Set Warnings "-clear-no-such-hyp".

Open Scope string_scope.
Open Scope list_scope.

(** ** Values *)

(** Decoded JSON, as [json.loads] / [receive_json] hand it to the code and as
    the dict literals of the source build it.  Numbers are integers; floats
    are not modelled. *)
#[warnings="-register-all"]
Inductive json :=
  | JNull
  | JBool (b : bool)
  | JNum (n : Z)
  | JStr (s : string)
  | JArr (items : list json)
  | JObj (fields : list (string * json)).

(** [bool(x)] on a decoded JSON value: the test behind [if topic:]. *)
Definition truthy (j : json) : bool :=
  match j with
  | JNull => false
  | JBool b => b
  | JNum n => negb (n =? 0)%Z
  | JStr s => negb (String.eqb s "")
  | JArr items => match items with [] => false | _ => true end
  | JObj fields => match fields with [] => false | _ => true end
  end.

(** [x == "literal"] for a decoded JSON value [x]. *)
Definition eq_str (j : json) (s : string) : bool :=
  match j with
  | JStr s' => String.eqb s' s
  | _ => false
  end.

(** A dict built from a list of pairs keeps, for a repeated key, the last
    value. *)
Fixpoint dict_lookup (k : string) (fields : list (string * json)) : option json :=
  match fields with
  | [] => None
  | (k', v) :: rest =>
      match dict_lookup k rest with
      | Some v' => Some v'
      | None => if String.eqb k' k then Some v else None
      end
  end.

(** Dictionary keys.  The annotations of the source say [topic: str], but
    Python does not enforce them and the endpoint passes on whatever JSON
    value the client sent, so a key is any hashable JSON scalar.  [True] and
    [1] are the same key, as are [False] and [0]. *)
Inductive pykey :=
  | KNone
  | KInt (n : Z)
  | KStr (s : string).

Coercion KStr : string >-> pykey.

#[global] Instance pykey_eq_dec : EqDecision pykey.
Proof. solve_decision. Defined.

#[global] Instance pykey_countable : Countable pykey.
Proof.
  refine (inj_countable'
            (λ k, match k with
                  | KNone => inl ()
                  | KInt n => inr (inl n)
                  | KStr s => inr (inr s)
                  end)
            (λ x, match x with
                  | inl _ => KNone
                  | inr (inl n) => KInt n
                  | inr (inr s) => KStr s
                  end) _).
  by intros [].
Defined.

(** [hash(x)]: lists and dicts are unhashable ([None] here stands for the
    [TypeError] that [x in some_dict] raises). *)
Definition json_key (j : json) : option pykey :=
  match j with
  | JNull => Some KNone
  | JBool b => Some (KInt (if b then 1 else 0))
  | JNum n => Some (KInt n)
  | JStr s => Some (KStr s)
  | JArr _ | JObj _ => None
  end.

(** ** Exceptions

    Every exception of the model is a subclass of [Exception]; task
    cancellation ([BaseException]) is not modelled. *)
Inductive exn :=
  | WebSocketDisconnect
  | RuntimeError
  | JSONDecodeError
  | AttributeError
  | TypeError
  | IndexError
  | ExpiredSignatureError
  | DecodeError
  | InvalidSignatureError
  | InvalidAudienceError
  | PyJWKClientError
  | RedisConnectionError
  | DatabaseError.

#[global] Instance exn_eq_dec : EqDecision exn.
Proof. solve_decision. Defined.

(** [isinstance(e, jwt.InvalidTokenError)]. *)
Definition is_InvalidTokenError (e : exn) : bool :=
  match e with
  | ExpiredSignatureError | DecodeError | InvalidSignatureError
  | InvalidAudienceError => true
  | _ => false
  end.

Inductive outcome (A : Type) :=
  | Return (a : A)
  | Raise (e : exn).
Arguments Return {A} a.
Arguments Raise {A} e.

(** ** The registry *)

(** A socket object, by identity. *)
Definition WebSocket := nat.

(** [class ConnectionManager]: [active_connections] maps a user id to the
    list of its sockets, [subscriptions] maps a topic to the set of
    subscribed user ids. *)
Record ConnectionManager := mkConnectionManager {
  active_connections : gmap string (list WebSocket);
  subscriptions : gmap pykey (gset string)
}.

(** [ConnectionManager.__init__] *)
Definition new_manager : ConnectionManager :=
  {| active_connections := ∅; subscriptions := ∅ |}.

(** [list.remove(x)]: removes the first occurrence (the source calls it
    only when [x in list]). *)
Fixpoint list_remove_first (x : WebSocket) (l : list WebSocket) : list WebSocket :=
  match l with
  | [] => []
  | y :: rest => if decide (y = x) then rest else y :: list_remove_first x rest
  end.

(** The list of a user and the set of a topic as they stand in the
    manager, empty when there is no entry: [connections_for] and
    [subscribers_of] of the specification. *)
Definition connections_for (user_id : string) (m : ConnectionManager) : list WebSocket :=
  default [] (active_connections m !! user_id).

Definition subscribers_of (topic : pykey) (m : ConnectionManager) : gset string :=
  default ∅ (subscriptions m !! topic).

(** ** The world *)

Inductive level := Debug | Info | Warning | Error.

(** What happened on the sockets, oldest first.  A send is recorded with
    whether it went through. *)
Inductive ws_event :=
  | WsAccept (ws : WebSocket)
  | WsSend (ws : WebSocket) (payload : json) (delivered : bool)
  | WsClose (ws : WebSocket) (code : Z) (reason : string).

Record world := mkWorld {
  manager : ConnectionManager;        (* the module-level [manager] *)
  redis_client : option unit;         (* the global [_redis] of core/redis.py *)
  wire : list ws_event;
  broker : list (string * json);      (* (channel, message) published *)
  logs : list (level * string);       (* structlog events *)
  clock : nat                         (* reads of [datetime.utcnow()] so far *)
}.

Definition set_manager (m : ConnectionManager) (w : world) : world :=
  {| manager := m; redis_client := redis_client w; wire := wire w;
     broker := broker w; logs := logs w; clock := clock w |}.

Definition set_redis_client (r : option unit) (w : world) : world :=
  {| manager := manager w; redis_client := r; wire := wire w;
     broker := broker w; logs := logs w; clock := clock w |}.

Definition add_wire (ev : ws_event) (w : world) : world :=
  {| manager := manager w; redis_client := redis_client w; wire := wire w ++ [ev];
     broker := broker w; logs := logs w; clock := clock w |}.

Definition add_broker (channel : string) (message : json) (w : world) : world :=
  {| manager := manager w; redis_client := redis_client w; wire := wire w;
     broker := broker w ++ [(channel, message)]; logs := logs w; clock := clock w |}.

Definition add_log (lv : level) (event : string) (w : world) : world :=
  {| manager := manager w; redis_client := redis_client w; wire := wire w;
     broker := broker w; logs := logs w ++ [(lv, event)]; clock := clock w |}.

Definition tick (w : world) : world :=
  {| manager := manager w; redis_client := redis_client w; wire := wire w;
     broker := broker w; logs := logs w; clock := S (clock w) |}.

(** A fresh process: nothing registered, no Redis client yet. *)
Definition initial_world : world :=
  {| manager := new_manager; redis_client := None; wire := []; broker := [];
     logs := []; clock := 0 |}.

(** ** Computations: state and exceptions *)

Definition M (A : Type) : Type := world → outcome A * world.

Definition ret {A} (a : A) : M A := λ w, (Return a, w).

Definition bind {A B} (c : M A) (k : A → M B) : M B :=
  λ w, match c w with
       | (Return a, w') => k a w'
       | (Raise e, w') => (Raise e, w')
       end.

Definition raise {A} (e : exn) : M A := λ w, (Raise e, w).

(** [try: body / except Exception as e: handler e]; the effects of the
    body up to the exception stay. *)
Definition try_except {A} (body : M A) (handler : exn → M A) : M A :=
  λ w, match body w with
       | (Return a, w') => (Return a, w')
       | (Raise e, w') => handler e w'
       end.

Definition get_manager : M ConnectionManager := λ w, (Return (manager w), w).
Definition put_manager (m : ConnectionManager) : M unit := λ w, (Return tt, set_manager m w).
Definition log (lv : level) (event : string) : M unit := λ w, (Return tt, add_log lv event w).

Declare Scope py_scope.
Delimit Scope py_scope with py.
Notation "'let*' x ':=' c 'in' k" := (bind c (λ x, k))
  (at level 10, x name, c at level 100, k at level 200) : py_scope.
Notation "c ;; k" := (bind c (λ _, k))
  (at level 100, k at level 200, right associativity) : py_scope.
Open Scope py_scope.

(** [for x in l: body x] *)
Fixpoint for_each {A} (l : list A) (body : A → M unit) : M unit :=
  match l with
  | [] => ret tt
  | x :: rest => body x ;; for_each rest body
  end.

Definition result {A} (c : M A) (w : world) : outcome A := fst (c w).
Definition exec {A} (c : M A) (w : world) : world := snd (c w).

(** ** The environment

    What the code cannot decide by itself: whether a socket operation goes
    through, what the JWT library and the database answer, whether Redis is
    there, and two Python builtins. *)

(** [src.models.user.User], of which the gate reads [id] and [is_active];
    [user_id_str] is [str(user.id)]. *)
Record User := mkUser {
  user_id_str : string;
  is_active : bool
}.

(** Any call on the manager, as made by the endpoints. *)
Inductive manager_call :=
  | CallConnect (websocket : WebSocket) (user_id : string)
  | CallDisconnect (websocket : WebSocket) (user_id : string)
  | CallSubscribe (user_id : string) (topic : pykey)
  | CallUnsubscribe (user_id : string) (topic : pykey).

Record env := mkEnv {
  (* the socket: [None] when the call goes through, else what it raises *)
  accept_raises : WebSocket → option exn;
  send_raises : WebSocket → option exn;
  close_raises : WebSocket → option exn;
  (* [get_jwks_client()] returns a client *)
  jwks_client : bool;
  (* [get_signing_key_from_jwt(token)] followed by [jwt.decode(...)] *)
  jwt_decode : string → outcome (list (string * json));
  (* the query [User.settings["clerk_id"].astext == clerk_id], then
     [scalar_one_or_none()] *)
  user_by_clerk_id : json → outcome (option User);
  (* [settings.REDIS_URL] *)
  REDIS_URL : option string;
  (* [ConnectionPool.from_url], [Redis(...)] and [ping()] *)
  redis_connect_raises : option exn;
  (* [redis.publish(channel, message)] *)
  redis_publish_raises : option exn;
  (* [str(x)] inside an f-string *)
  py_str : json → string;
  (* [datetime.isoformat()] of the n-th reading of the clock *)
  isoformat : nat → string;
  (* the event loop: the calls the handlers of the other connections make
     on the manager while the k-th [send_text] of a delivery call is
     awaited, for k = 0, 1, ...; none once the list is used up *)
  others : list (list manager_call)
}.

(** [E] with the other handlers doing [schedule]. *)
Definition with_others (schedule : list (list manager_call)) (E : env) : env :=
  {| accept_raises := accept_raises E;
     send_raises := send_raises E;
     close_raises := close_raises E;
     jwks_client := jwks_client E;
     jwt_decode := jwt_decode E;
     user_by_clerk_id := user_by_clerk_id E;
     REDIS_URL := REDIS_URL E;
     redis_connect_raises := redis_connect_raises E;
     redis_publish_raises := redis_publish_raises E;
     py_str := py_str E;
     isoformat := isoformat E;
     others := schedule |}.

Section Backend.

Variable E : env.

(** *** Socket primitives *)

(** [await websocket.accept()] *)
Definition ws_accept (ws : WebSocket) : M unit :=
  λ w, match accept_raises E ws with
       | Some e => (Raise e, w)
       | None => (Return tt, add_wire (WsAccept ws) w)
       end.

(** [await ws.send_text(json.dumps(message))], and [ws.send_json(message)]
    which is the same call: the frame is kept as the value it serialises. *)
Definition ws_send (ws : WebSocket) (payload : json) : M unit :=
  λ w, match send_raises E ws with
       | Some e => (Raise e, add_wire (WsSend ws payload false) w)
       | None => (Return tt, add_wire (WsSend ws payload true) w)
       end.

(** [await websocket.close(code=..., reason=...)] *)
Definition ws_close (ws : WebSocket) (code : Z) (reason : string) : M unit :=
  λ w, match close_raises E ws with
       | Some e => (Raise e, add_wire (WsClose ws code reason) w)
       | None => (Return tt, add_wire (WsClose ws code reason) w)
       end.

(** [datetime.utcnow().isoformat()] *)
Definition utcnow_isoformat : M string :=
  λ w, (Return (isoformat E (clock w)), tick w).

(** *** [class ConnectionManager] *)

(** [ConnectionManager.connect] *)
Definition connect (websocket : WebSocket) (user_id : string) : M unit :=
  ws_accept websocket ;;
  let* m := get_manager in
  let ac := active_connections m in
  let ac1 := match ac !! user_id with
             | None => <[user_id := []]> ac
             | Some _ => ac
             end in
  let ac2 := alter (λ conns, conns ++ [websocket]) user_id ac1 in
  put_manager {| active_connections := ac2; subscriptions := subscriptions m |} ;;
  log Info "websocket_connected".

(** [ConnectionManager.disconnect] *)
Definition disconnect (websocket : WebSocket) (user_id : string) : M unit :=
  let* m := get_manager in
  let ac := active_connections m in
  let ac2 :=
    match ac !! user_id with
    | Some conns =>
        let ac1 := if bool_decide (websocket ∈ conns)
                   then <[user_id := list_remove_first websocket conns]> ac
                   else ac in
        match ac1 !! user_id with
        | Some [] => delete user_id ac1
        | _ => ac1
        end
    | None => ac
    end in
  (* Remove from all subscriptions *)
  let subs := (λ members : gset string, members ∖ {[user_id]}) <$> subscriptions m in
  put_manager {| active_connections := ac2; subscriptions := subs |} ;;
  log Info "websocket_disconnected".

(** [ConnectionManager.subscribe] *)
Definition subscribe (user_id : string) (topic : pykey) : M unit :=
  let* m := get_manager in
  let subs := subscriptions m in
  let subs1 := match subs !! topic with
               | None => <[topic := ∅]> subs
               | Some _ => subs
               end in
  let subs2 := alter (λ members : gset string, members ∪ {[user_id]}) topic subs1 in
  put_manager {| active_connections := active_connections m; subscriptions := subs2 |} ;;
  log Debug "user_subscribed".

(** [ConnectionManager.unsubscribe] *)
Definition unsubscribe (user_id : string) (topic : pykey) : M unit :=
  let* m := get_manager in
  let subs := subscriptions m in
  match subs !! topic with
  | Some _ =>
      let subs1 := alter (λ members : gset string, members ∖ {[user_id]}) topic subs in
      put_manager {| active_connections := active_connections m; subscriptions := subs1 |}
  | None => ret tt
  end.

(** *** The delivery loops

    The three senders [await ws.send_text(...)] inside [for] loops that run
    over the manager's own list, set and dict, not over copies.  While a
    send is awaited the event loop runs the handlers of the other
    connections, which call [connect], [disconnect], [subscribe] and
    [unsubscribe]; the loop then goes on over what they left.  [others E]
    says what they do: its k-th batch runs while the k-th send of the call
    is awaited. *)

Definition run_manager_call (c : manager_call) : M unit :=
  match c with
  | CallConnect ws u => connect ws u
  | CallDisconnect ws u => disconnect ws u
  | CallSubscribe u t => subscribe u t
  | CallUnsubscribe u t => unsubscribe u t
  end.

Definition run_manager_calls (calls : list manager_call) (w : world) : world :=
  fold_left (λ w c, exec (run_manager_call c) w) calls w.

(** The other handlers run [calls] while a loop over the list of [user_id]
    is suspended.  The list object the loop holds is the one in
    [active_connections] until [disconnect] deletes the key, which it does
    when the list is empty; a later [connect] makes a new list, which the
    loop does not see.  The boolean says whether the object is still the
    registered one. *)
Fixpoint meanwhile (calls : list manager_call) (user_id : string) (w : world) : world * bool :=
  match calls with
  | [] => (w, true)
  | c :: rest =>
      let w1 := exec (run_manager_call c) w in
      match active_connections (manager w1) !! user_id with
      | Some _ => meanwhile rest user_id w1
      | None => (run_manager_calls rest w1, false)
      end
  end.

(** [try: await ws.send_text(message_json) / except Exception as e:
    logger.error(event, ...)] *)
Definition try_send (ws : WebSocket) (message : json) (event : string) : M unit :=
  try_except (ws_send ws message) (λ e, log Error event).

(** [for ws in self.active_connections[user_id]: try_send ws], from index
    [i] on.  A list iterator keeps an index into the list object and stops
    when the index is past its end: an element removed from under it makes
    it skip the next one, an appended one is visited.  With nobody left to
    run meanwhile, the rest of the list is visited as it is.  Returns the
    batches not used. *)
Fixpoint iterate_connections (schedule : list (list manager_call)) (user_id : string)
    (i : nat) (message : json) (event : string) : M (list (list manager_call)) :=
  match schedule with
  | [] =>
      λ w, (for_each (drop i (connections_for user_id (manager w)))
                     (λ ws, try_send ws message event) ;;
            ret []) w
  | batch :: later =>
      λ w, match connections_for user_id (manager w) !! i with
           | None => (Return schedule, w)
           | Some ws =>
               let '(w1, registered) := meanwhile batch user_id w in
               let w2 := exec (try_send ws message event) w1 in
               if registered
               then iterate_connections later user_id (S i) message event w2
               else (Return later, w2)
           end
  end.

(** [ConnectionManager.send_personal] *)
Definition send_personal (user_id : string) (message : json) : M unit :=
  let* m := get_manager in
  match active_connections m !! user_id with
  | Some _ =>
      iterate_connections (others E) user_id 0 message "websocket_send_error" ;;
      ret tt
  | None => ret tt
  end.

(** [for user_id in self.subscriptions[topic]: ...].  A set iterator raises
    [RuntimeError] ("Set changed size during iteration") from [next] when
    the size of the set is not the one it started with; the exception
    leaves the [for], which no [try] guards.  The set is iterated in an
    unspecified order; [elements] fixes one, and [todo] is what is left of
    it.  A change that keeps the size goes unnoticed: the members removed
    are skipped (what CPython yields for the ones added depends on the
    hash table, here they are not visited). *)
Fixpoint iterate_subscribers (schedule : list (list manager_call)) (size0 : nat)
    (todo : list string) (topic : pykey) (message : json) : M unit :=
  λ w,
    if decide (size (subscribers_of topic (manager w)) = size0) then
      match todo with
      | [] => (Return tt, w)
      | user_id :: later =>
          if decide (user_id ∈ subscribers_of topic (manager w)) then
            (let* rest :=
               match active_connections (manager w) !! user_id with
               | Some _ =>
                   iterate_connections schedule user_id 0 message "websocket_broadcast_error"
               | None => ret schedule
               end in
             iterate_subscribers rest size0 later topic message) w
          else iterate_subscribers schedule size0 later topic message w
      end
    else (Raise RuntimeError, w).

(** [ConnectionManager.broadcast_to_topic] *)
Definition broadcast_to_topic (topic : pykey) (message : json) : M unit :=
  let* m := get_manager in
  match subscriptions m !! topic with
  | None => ret tt
  | Some members =>
      iterate_subscribers (others E) (size members) (elements members) topic message
  end.

(** [for user_id, connections in self.active_connections.items(): ...].
    A dict iterator raises [RuntimeError] ("dictionary changed size during
    iteration") from [next] when the number of keys is not the one it
    started with.  A Python dict is iterated in insertion order, which the
    [gmap] does not keep: [map_to_list] fixes an order, and [todo] is what
    is left of it.  A change that keeps the number of keys goes unnoticed:
    the keys deleted are skipped (CPython goes on to the ones added, here
    they are not visited). *)
Fixpoint iterate_users (schedule : list (list manager_call)) (size0 : nat)
    (todo : list string) (message : json) : M unit :=
  λ w,
    if decide (size (active_connections (manager w)) = size0) then
      match todo with
      | [] => (Return tt, w)
      | user_id :: later =>
          match active_connections (manager w) !! user_id with
          | Some _ =>
              (let* rest :=
                 iterate_connections schedule user_id 0 message
                                     "websocket_broadcast_all_error" in
               iterate_users rest size0 later message) w
          | None => iterate_users schedule size0 later message w
          end
      end
    else (Raise RuntimeError, w).

(** [ConnectionManager.broadcast_all] *)
Definition broadcast_all (message : json) : M unit :=
  let* m := get_manager in
  iterate_users (others E) (size (active_connections m))
                (map_to_list (active_connections m)).*1 message.

(** *** The session gate (api/dependencies.py) *)

(** [verify_clerk_token] *)
Definition verify_clerk_token (token : string) : M (option (list (string * json))) :=
  try_except
    (if jwks_client E then
       match jwt_decode E token with
       | Return payload => ret (Some payload)
       | Raise e => raise e
       end
     else
       log Error "jwks_client_not_available" ;;
       ret None)
    (λ e,
       if decide (e = ExpiredSignatureError) then
         log Warning "token_expired" ;; ret None
       else if is_InvalidTokenError e then
         log Warning "token_invalid" ;; ret None
       else
         log Error "token_verification_error" ;; ret None).

(** [verify_ws_token].  [not claims] holds for [None] and for the empty
    dict; [claims.get("sub")] is [None] when the key is missing. *)
Definition verify_ws_token (token : string) : M (option User) :=
  let* claims := verify_clerk_token token in
  match claims with
  | None | Some [] => ret None
  | Some claims =>
      let clerk_id := default JNull (dict_lookup "sub" claims) in
      if negb (truthy clerk_id) then ret None
      else
        match user_by_clerk_id E clerk_id with
        | Raise e => raise e
        | Return user =>
            match user with
            | Some user => if is_active user then ret (Some user) else ret None
            | None => ret None
            end
        end
  end.

(** *** The Redis client (core/redis.py) *)

(** [init_redis] *)
Definition init_redis : M (option unit) :=
  match REDIS_URL E with
  | None | Some "" =>
      log Warning "redis_disabled" ;;
      ret None
  | Some _ =>
      try_except
        (match redis_connect_raises E with
         | Some e =>
             (* [_redis] may already be assigned when [ping] raises *)
             raise e
         | None =>
             (λ w, (Return tt, set_redis_client (Some tt) w)) ;;
             log Info "redis_connected" ;;
             ret (Some tt)
         end)
        (λ e,
           log Error "redis_connection_error" ;;
           (λ w, (Return tt, set_redis_client None w)) ;;
           ret None)
  end.

(** [get_redis] *)
Definition get_redis : M (option unit) :=
  let* cached := (λ w, (Return (redis_client w), w)) in
  match cached with
  | None => init_redis ;; (λ w, (Return (redis_client w), w))
  | Some r => ret (Some r)
  end.

(** [await redis.publish(channel, message)]; the message is kept as the
    value [json.dumps] serialises. *)
Definition redis_publish (channel : string) (message : json) : M unit :=
  λ w, match redis_publish_raises E with
       | Some e => (Raise e, w)
       | None => (Return tt, add_broker channel message w)
       end.

(** *** The [/connect] endpoint *)

(** What [await websocket.receive_json()] gives for one inbound frame: the
    decoded value, or an exception ([WebSocketDisconnect] when the client
    went away, [JSONDecodeError] when the text is not JSON, ...). *)
Inductive frame :=
  | Recv (data : json)
  | RecvRaises (e : exn).

Definition receive_json (f : frame) : M json :=
  match f with
  | Recv data => ret data
  | RecvRaises e => raise e
  end.

(** [data.get(key)]: only a dict has [get]. *)
Definition py_get (data : json) (key : string) : M json :=
  match data with
  | JObj fields => ret (default JNull (dict_lookup key fields))
  | _ => raise AttributeError
  end.

(** The key under which a JSON value is looked up in a dict. *)
Definition hash_key (j : json) : M pykey :=
  match json_key j with
  | Some k => ret k
  | None => raise TypeError
  end.

(** One turn of the [while True] loop, after [receive_json] returned. *)
Definition handle_message (websocket : WebSocket) (user_id : string) (data : json) : M unit :=
  let* action := py_get data "action" in
  if eq_str action "ping" then
    let* now := utcnow_isoformat in
    ws_send websocket (JObj [("type", JStr "pong"); ("timestamp", JStr now)])
  else if eq_str action "subscribe" then
    let* topic := py_get data "topic" in
    if truthy topic then
      let* key := hash_key topic in
      subscribe user_id key ;;
      let* now := utcnow_isoformat in
      ws_send websocket (JObj [("type", JStr "subscribed"); ("timestamp", JStr now);
                               ("data", JObj [("topic", topic)])])
    else ret tt
  else if eq_str action "unsubscribe" then
    let* topic := py_get data "topic" in
    if truthy topic then
      let* key := hash_key topic in
      unsubscribe user_id key ;;
      let* now := utcnow_isoformat in
      ws_send websocket (JObj [("type", JStr "unsubscribed"); ("timestamp", JStr now);
                               ("data", JObj [("topic", topic)])])
    else ret tt
  else
    let* now := utcnow_isoformat in
    ws_send websocket
      (JObj [("type", JStr "error"); ("timestamp", JStr now);
             ("data", JObj [("message", JStr ("Unknown action: " +:+ py_str E action))])]).

(** A handler either has returned or is suspended in [receive_json]
    waiting for the next frame. *)
Inductive status := Returned | Awaiting.

(** The [while True] loop over the frames received so far. *)
Fixpoint receive_loop (websocket : WebSocket) (user_id : string) (inbound : list frame) : M status :=
  match inbound with
  | [] => ret Awaiting
  | f :: rest =>
      let* data := receive_json f in
      handle_message websocket user_id data ;;
      receive_loop websocket user_id rest
  end.

Definition welcome (user_id now : string) : json :=
  JObj [("type", JStr "connected");
        ("timestamp", JStr now);
        ("data", JObj [("user_id", JStr user_id);
                       ("message", JStr "Connected to VerifiAI real-time updates");
                       ("subscriptions", JArr [JStr "proofs"; JStr "agents";
                                               JStr "settlements"; JStr "platform"])])].

(** The [try: while True: ... except WebSocketDisconnect: ... except
    Exception: ...] block of [websocket_endpoint]. *)
Definition serve (websocket : WebSocket) (user_id : string) (inbound : list frame) : M status :=
  try_except
    (receive_loop websocket user_id inbound)
    (λ e,
       if decide (e = WebSocketDisconnect) then
         disconnect websocket user_id ;;
         ret Returned
       else
         log Error "websocket_error" ;;
         disconnect websocket user_id ;;
         ret Returned).

(** [websocket_endpoint] *)
Definition websocket_endpoint (websocket : WebSocket) (token : string) (inbound : list frame) : M status :=
  let* user := verify_ws_token token in
  match user with
  | None =>
      ws_close websocket 4001 "Invalid authentication token" ;;
      ret Returned
  | Some user =>
      let user_id := user_id_str user in
      connect websocket user_id ;;
      subscribe user_id "proofs" ;;
      subscribe user_id "agents" ;;
      subscribe user_id "settlements" ;;
      subscribe user_id "platform" ;;
      let* now := utcnow_isoformat in
      ws_send websocket (welcome user_id now) ;;
      serve websocket user_id inbound
  end.

(** *** The Redis bridge *)

(** [s.split(":", 1)[1]]: what follows the first colon (character 58). *)
Fixpoint after_colon (s : string) : option string :=
  match s with
  | EmptyString => None
  | String c rest => if Ascii.eqb c (Ascii.ascii_of_nat 58) then Some rest else after_colon rest
  end.

Definition split_colon_1 (s : string) : M string :=
  match after_colon s with
  | Some rest => ret rest
  | None => raise IndexError
  end.

(** [publish_via_redis] *)
Definition publish_via_redis (target : string) (payload : json) : M unit :=
  try_except
    (let* redis := get_redis in
     match redis with
     | Some _ =>
         let message := JObj [("target", JStr target); ("payload", payload)] in
         redis_publish "verifiai:ws:broadcast" message
     | None =>
         (* Fallback to direct delivery if Redis not available *)
         if String.eqb target "all" then
           broadcast_all payload
         else if String.prefix "user:" target then
           let* user_id := split_colon_1 target in
           send_personal user_id payload
         else if String.prefix "topic:" target then
           let* topic := split_colon_1 target in
           broadcast_to_topic topic payload
         else ret tt
     end)
    (λ e, log Error "redis_publish_error").

End Backend.

(** ** A test environment

    Healthy sockets except socket 13, whose peer is gone; three known
    tokens; no Redis configured. *)
Definition alice : User := {| user_id_str := "alice"; is_active := true |}.
Definition mallory : User := {| user_id_str := "mallory"; is_active := false |}.

Definition test_env : env :=
  {| accept_raises := λ _, None;
     send_raises := λ ws, if decide (ws = 13) then Some RuntimeError else None;
     close_raises := λ _, None;
     jwks_client := true;
     jwt_decode := λ token,
       if String.eqb token "alice-token" then Return [("sub", JStr "clerk_alice")]
       else if String.eqb token "mallory-token" then Return [("sub", JStr "clerk_mallory")]
       else if String.eqb token "expired-token" then Raise ExpiredSignatureError
       else if String.eqb token "forged-token" then Raise InvalidSignatureError
       else Raise DecodeError;
     user_by_clerk_id := λ clerk_id,
       if eq_str clerk_id "clerk_alice" then Return (Some alice)
       else if eq_str clerk_id "clerk_mallory" then Return (Some mallory)
       else Return None;
     REDIS_URL := None;
     redis_connect_raises := None;
     redis_publish_raises := None;
     py_str := λ j, match j with JStr s => s | _ => "None" end;
     isoformat := λ n, "2024-01-01T00:00:00";
     others := [] |}.

(** The same with a Redis server that accepts connections and then fails
    every publish. *)
Definition test_env_redis_down : env :=
  {| accept_raises := accept_raises test_env;
     send_raises := send_raises test_env;
     close_raises := close_raises test_env;
     jwks_client := jwks_client test_env;
     jwt_decode := jwt_decode test_env;
     user_by_clerk_id := user_by_clerk_id test_env;
     REDIS_URL := Some "redis://localhost:6379/0";
     redis_connect_raises := None;
     redis_publish_raises := Some RedisConnectionError;
     py_str := py_str test_env;
     isoformat := isoformat test_env;
     others := others test_env |}.

(** * Properties *)

(** ** Running computations *)

Lemma exec_bind {A B} (c : M A) (k : A → M B) w a :
  result c w = Return a → exec (bind c k) w = exec (k a) (exec c w).
Proof.
  unfold result, exec, bind. destruct (c w) as [[a'|e] w']; simpl; congruence.
Qed.

Lemma result_bind {A B} (c : M A) (k : A → M B) w a :
  result c w = Return a → result (bind c k) w = result (k a) (exec c w).
Proof.
  unfold result, exec, bind. destruct (c w) as [[a'|e] w']; simpl; congruence.
Qed.

Lemma exec_seq (c k : M unit) w :
  result c w = Return tt → exec (c ;; k) w = exec k (exec c w).
Proof. apply exec_bind. Qed.

Lemma result_seq (c k : M unit) w :
  result c w = Return tt → result (c ;; k) w = result k (exec c w).
Proof. apply result_bind. Qed.

(** ** Subscriptions: [subscribe] and [unsubscribe] *)

Section Subscriptions.

Lemma subscribe_returns u t w : result (subscribe u t) w = Return tt.
Proof. reflexivity. Qed.

Lemma unsubscribe_returns u t w : result (unsubscribe u t) w = Return tt.
Proof.
  unfold result, unsubscribe, bind, get_manager.
  by destruct (subscriptions (manager w) !! t).
Qed.

Lemma subscribe_lookup u t t' w :
  subscriptions (manager (exec (subscribe u t) w)) !! t' =
  if decide (t = t')
  then Some (subscribers_of t (manager w) ∪ {[u]})
  else subscriptions (manager w) !! t'.
Proof.
  unfold exec, subscribe, bind, get_manager, put_manager, log, subscribers_of; simpl.
  destruct (subscriptions (manager w) !! t) as [s|] eqn:Ht;
    case_decide; subst; by simplify_map_eq.
Qed.

Lemma unsubscribe_lookup u t t' w :
  subscriptions (manager (exec (unsubscribe u t) w)) !! t' =
  if decide (t = t')
  then (λ members : gset string, members ∖ {[u]}) <$> subscriptions (manager w) !! t
  else subscriptions (manager w) !! t'.
Proof.
  unfold exec, unsubscribe, bind, get_manager, put_manager; simpl.
  destruct (subscriptions (manager w) !! t) as [s|] eqn:Ht; simpl;
    case_decide; subst; rewrite ?lookup_alter_eq, ?lookup_alter_ne, ?Ht by done; done.
Qed.

Lemma subscribers_of_subscribe u t w :
  subscribers_of t (manager (exec (subscribe u t) w)) =
  subscribers_of t (manager w) ∪ {[u]}.
Proof.
  unfold subscribers_of at 1. rewrite subscribe_lookup.
  by destruct (decide (t = t)).
Qed.

Lemma subscribers_of_unsubscribe u t w :
  subscribers_of t (manager (exec (unsubscribe u t) w)) =
  subscribers_of t (manager w) ∖ {[u]}.
Proof.
  unfold subscribers_of. rewrite unsubscribe_lookup.
  destruct (decide (t = t)) as [_|]; [|done].
  destruct (subscriptions (manager w) !! t); simpl; [done | set_solver].
Qed.

(** The pair [subscribe(u, t); unsubscribe(u, t)] always leaves [u] out of
    the subscribers of [t], whatever was there before. *)
Lemma subscribers_of_round_trip u t w :
  subscribers_of t (manager (exec (subscribe u t ;; unsubscribe u t) w)) =
  subscribers_of t (manager w) ∖ {[u]}.
Proof.
  rewrite exec_seq by apply subscribe_returns.
  rewrite subscribers_of_unsubscribe, subscribers_of_subscribe.
  set_solver.
Qed.

Lemma subscribe_twice u t w :
  subscriptions (manager (exec (subscribe u t ;; subscribe u t) w)) =
  subscriptions (manager (exec (subscribe u t) w)).
Proof.
  rewrite exec_seq by apply subscribe_returns.
  apply map_eq; intros t'. rewrite !subscribe_lookup.
  case_decide; [|done]. f_equal.
  rewrite subscribers_of_subscribe. set_solver.
Qed.

Lemma unsubscribe_twice u t w :
  subscriptions (manager (exec (unsubscribe u t ;; unsubscribe u t) w)) =
  subscriptions (manager (exec (unsubscribe u t) w)).
Proof.
  rewrite exec_seq by apply unsubscribe_returns.
  apply map_eq; intros t'. rewrite !unsubscribe_lookup.
  case_decide; [|done].
  rewrite decide_True by done.
  destruct (subscriptions (manager w) !! t) as [members|]; simpl; [|done].
  f_equal. set_solver.
Qed.

(** C8 (as amended).  When [u] is not yet subscribed to [t], [subscribe(u, t)]
    followed by [unsubscribe(u, t)] gives back the subscribers of [t] as they
    were; in general the pair leaves the old subscribers without [u].  Each
    of the two calls is idempotent on the subscription table. *)
Theorem subscribe_unsubscribe_restores_when_new u t w :
  (u ∉ subscribers_of t (manager w) →
   subscribers_of t (manager (exec (subscribe u t ;; unsubscribe u t) w)) =
   subscribers_of t (manager w))
  ∧ subscribers_of t (manager (exec (subscribe u t ;; unsubscribe u t) w)) =
    subscribers_of t (manager w) ∖ {[u]}
  ∧ subscriptions (manager (exec (subscribe u t ;; subscribe u t) w)) =
    subscriptions (manager (exec (subscribe u t) w))
  ∧ subscriptions (manager (exec (unsubscribe u t ;; unsubscribe u t) w)) =
    subscriptions (manager (exec (unsubscribe u t) w)).
Proof.
  split; [|split; [|split]].
  - intros Hnew. rewrite subscribers_of_round_trip. set_solver.
  - apply subscribers_of_round_trip.
  - apply subscribe_twice.
  - apply unsubscribe_twice.
Qed.

End Subscriptions.

(** alice opens two tabs: two handshakes on sockets 1 and 2, both handlers
    now waiting for a first frame. *)
Definition alice_two_tabs : world :=
  exec (websocket_endpoint test_env 2 "alice-token" [])
       (exec (websocket_endpoint test_env 1 "alice-token" []) initial_world).

Lemma subscribe_unsubscribe_restores_when_new_witness :
  ("bob" ∉ subscribers_of "proofs" (manager alice_two_tabs)) ∧
  subscribers_of "proofs" (manager (exec (subscribe "bob" "proofs" ;; unsubscribe "bob" "proofs") alice_two_tabs)) =
  subscribers_of "proofs" (manager alice_two_tabs).
Proof.
  assert (Hnew : "bob" ∉ subscribers_of "proofs" (manager alice_two_tabs)).
  { apply (bool_decide_unpack _). vm_compute. exact I. }
  split; [exact Hnew|].
  exact (proj1 (subscribe_unsubscribe_restores_when_new "bob" "proofs" alice_two_tabs) Hnew).
Defined.

(** C8, counterexample.  alice already follows [proofs]; after
    [subscribe("alice", "proofs")] and [unsubscribe("alice", "proofs")] she
    no longer does, so the subscribers of [proofs] are not what they were. *)
Lemma subscribe_unsubscribe_forgets_prior_subscription :
  subscribers_of "proofs" (manager (exec (subscribe "alice" "proofs" ;; unsubscribe "alice" "proofs") alice_two_tabs)) ≠
  subscribers_of "proofs" (manager alice_two_tabs).
Proof.
  intros Heq.
  assert (Hin : "alice" ∈ subscribers_of "proofs" (manager alice_two_tabs)).
  { apply (bool_decide_unpack _). vm_compute. exact I. }
  rewrite <- Heq, subscribers_of_round_trip in Hin.
  apply elem_of_difference in Hin as [_ Hnot]. by apply Hnot, elem_of_singleton.
Qed.

(** ** The registry: [connect] and [disconnect] *)

Section Registry.

Variable E : env.

Lemma disconnect_returns ws u w : result (disconnect ws u) w = Return tt.
Proof. reflexivity. Qed.

(** [connect] either registers, or raises at [accept] and leaves the world
    as it was. *)
Lemma connect_lookup ws u u' w :
  accept_raises E ws = None →
  active_connections (manager (exec (connect E ws u) w)) !! u' =
  if decide (u = u')
  then Some (connections_for u (manager w) ++ [ws])
  else active_connections (manager w) !! u'.
Proof.
  intros Hok.
  unfold exec, connect, bind, ws_accept, get_manager, put_manager, log, connections_for.
  rewrite Hok; simpl.
  destruct (active_connections (manager w) !! u) as [conns|] eqn:Hu;
    case_decide; subst; by simplify_map_eq.
Qed.

Lemma connect_subscriptions ws u w :
  subscriptions (manager (exec (connect E ws u) w)) = subscriptions (manager w).
Proof.
  unfold exec, connect, bind, ws_accept, get_manager, put_manager, log.
  by destruct (accept_raises E ws).
Qed.

Lemma connect_refused ws u w e :
  accept_raises E ws = Some e → connect E ws u w = (Raise e, w).
Proof.
  intros Hno. unfold connect, bind, ws_accept. by rewrite Hno.
Qed.

(** What is left of a user's list after [disconnect]: [None] when the key
    goes. *)
Definition remaining (ws : WebSocket) (entry : option (list WebSocket)) : option (list WebSocket) :=
  match entry with
  | Some conns =>
      match (if bool_decide (ws ∈ conns) then list_remove_first ws conns else conns) with
      | [] => None
      | others => Some others
      end
  | None => None
  end.

Lemma disconnect_lookup ws u u' w :
  active_connections (manager (exec (disconnect ws u) w)) !! u' =
  if decide (u = u')
  then remaining ws (active_connections (manager w) !! u)
  else active_connections (manager w) !! u'.
Proof.
  unfold exec, disconnect, bind, get_manager, put_manager, log, remaining; simpl.
  destruct (active_connections (manager w) !! u) as [conns|] eqn:Hu.
  - case_bool_decide.
    + rewrite lookup_insert_eq.
      destruct (list_remove_first ws conns) eqn:Hrem;
        case_decide; subst; by simplify_map_eq.
    + rewrite Hu. destruct conns; case_decide; subst; by simplify_map_eq.
  - case_decide; subst; by simplify_map_eq.
Qed.

Lemma disconnect_subscriptions ws u w :
  subscriptions (manager (exec (disconnect ws u) w)) =
  (λ members : gset string, members ∖ {[u]}) <$> subscriptions (manager w).
Proof. reflexivity. Qed.

(** Whatever else the user has open, [disconnect] takes the user out of
    every topic. *)
Lemma disconnect_unsubscribes_everywhere ws u t w :
  u ∉ subscribers_of t (manager (exec (disconnect ws u) w)).
Proof.
  unfold subscribers_of. rewrite disconnect_subscriptions, lookup_fmap.
  destruct (subscriptions (manager w) !! t); simpl; set_solver.
Qed.

Lemma disconnect_keeps_other_subscribers ws u u' t w :
  u' ≠ u →
  u' ∈ subscribers_of t (manager (exec (disconnect ws u) w)) ↔
  u' ∈ subscribers_of t (manager w).
Proof.
  intros Hne. unfold subscribers_of.
  rewrite disconnect_subscriptions, lookup_fmap.
  destruct (subscriptions (manager w) !! t); simpl; set_solver.
Qed.

(** The invariant of the identity-to-connections mapping. *)
Definition no_empty_entry (m : ConnectionManager) : Prop :=
  ∀ u conns, active_connections m !! u = Some conns → conns ≠ [].

Lemma no_empty_entry_new : no_empty_entry new_manager.
Proof. intros u conns Hu. simpl in Hu. by rewrite lookup_empty in Hu. Qed.

Lemma connect_no_empty_entry ws u w :
  no_empty_entry (manager w) → no_empty_entry (manager (exec (connect E ws u) w)).
Proof.
  intros Hinv. destruct (accept_raises E ws) as [e|] eqn:Hacc.
  - unfold exec. by rewrite (connect_refused _ _ _ _ Hacc).
  - intros u' conns. rewrite connect_lookup by done.
    case_decide; [|by apply Hinv].
    intros [= <-]. by destruct (connections_for u (manager w)).
Qed.

Lemma disconnect_no_empty_entry ws u w :
  no_empty_entry (manager w) → no_empty_entry (manager (exec (disconnect ws u) w)).
Proof.
  intros Hinv u' conns. rewrite disconnect_lookup.
  case_decide; [|by apply Hinv].
  unfold remaining. destruct (active_connections (manager w) !! u) as [old|]; [|done].
  destruct (if bool_decide (ws ∈ old) then list_remove_first ws old else old); [done|].
  by intros [= <-].
Qed.

End Registry.

(** A call on the registry, as made by some handler. *)
Inductive registry_call :=
  | Register (websocket : WebSocket) (user_id : string)
  | Unregister (websocket : WebSocket) (user_id : string).

Definition run_call (E : env) (c : registry_call) : M unit :=
  match c with
  | Register ws u => connect E ws u
  | Unregister ws u => disconnect ws u
  end.

(** The calls come from independent handlers: one that raises (a refused
    [accept]) does not stop the next. *)
Definition run_calls (E : env) (calls : list registry_call) (w : world) : world :=
  fold_left (λ w c, exec (run_call E c) w) calls w.

Lemma run_calls_no_empty_entry E calls w :
  no_empty_entry (manager w) → no_empty_entry (manager (run_calls E calls w)).
Proof.
  revert w. induction calls as [|c calls IH]; intros w Hinv; [done|].
  simpl. apply IH. destruct c; simpl.
  - by apply connect_no_empty_entry.
  - by apply disconnect_no_empty_entry.
Qed.

(** C3.  After any sequence of [connect] and [disconnect] calls on a fresh
    registry, a user id is a key of [active_connections] exactly when its
    connection list is non-empty, and a [disconnect] of the only connection
    of a user removes the key in that very call. *)
Theorem registry_keeps_no_empty_list E calls :
  let w := run_calls E calls initial_world in
  (∀ u, is_Some (active_connections (manager w) !! u) ↔ connections_for u (manager w) ≠ [])
  ∧ (∀ ws u, connections_for u (manager w) = [ws] →
             active_connections (manager (exec (disconnect ws u) w)) !! u = None).
Proof.
  intros w.
  assert (Hinv : no_empty_entry (manager w)).
  { apply run_calls_no_empty_entry, no_empty_entry_new. }
  split.
  - intros u. unfold connections_for. split.
    + intros [conns Hu]. rewrite Hu. simpl. by eapply Hinv.
    + destruct (active_connections (manager w) !! u); [eauto | done].
  - intros ws u Hone. rewrite disconnect_lookup, decide_True by done.
    unfold connections_for in Hone.
    destruct (active_connections (manager w) !! u) as [conns|]; simpl in *; [|done].
    subst conns. unfold remaining.
    rewrite bool_decide_true by set_solver.
    simpl. by rewrite decide_True.
Qed.

Lemma registry_keeps_no_empty_list_witness :
  let w := run_calls test_env [Register 1 "alice"; Register 2 "bob"; Unregister 2 "bob"] initial_world in
  connections_for "alice" (manager w) = [1] ∧
  active_connections (manager (exec (disconnect 1 "alice") w)) !! "alice" = None.
Proof.
  intros w.
  assert (Hone : connections_for "alice" (manager w) = [1]) by (vm_compute; reflexivity).
  split; [exact Hone|].
  exact (proj2 (registry_keeps_no_empty_list test_env
                  [Register 1 "alice"; Register 2 "bob"; Unregister 2 "bob"]) 1 "alice" Hone).
Defined.

(** C2.  alice has two tabs open and follows [proofs].  Closing the first
    tab leaves the second registered, yet [disconnect] has taken her out of
    the subscribers of [proofs]: the loop over the topics runs on every
    call, not only when the last connection goes. *)
Theorem disconnect_with_tab_left_drops_subscriptions :
  let w := exec (disconnect 1 "alice") alice_two_tabs in
  connections_for "alice" (manager alice_two_tabs) = [1; 2]
  ∧ "alice" ∈ subscribers_of "proofs" (manager alice_two_tabs)
  ∧ connections_for "alice" (manager w) = [2]
  ∧ "alice" ∉ subscribers_of "proofs" (manager w).
Proof.
  intros w. split; [by vm_compute|]. split; [|split; [by vm_compute|]].
  - apply (bool_decide_unpack _). vm_compute. exact I.
  - apply disconnect_unsubscribes_everywhere.
Qed.

(** ** The router: [send_personal], [broadcast_to_topic], [broadcast_all] *)

(** The frames put on the wire between [w] and a later [w']. *)
Definition new_frames (w w' : world) : list ws_event :=
  drop (length (wire w)) (wire w').

Section Router.

Variable E : env.

(** Whether a send on [ws] goes through. *)
Definition delivered (ws : WebSocket) : bool :=
  bool_decide (send_raises E ws = None).

(** One attempt per connection, in list order. *)
Definition sends (message : json) (conns : list WebSocket) : list ws_event :=
  (λ ws, WsSend ws message (delivered ws)) <$> conns.

(** [w'] is [w] with the frames [evs] added to the wire, and possibly some
    log lines. *)
Definition only_sent (w w' : world) (evs : list ws_event) : Prop :=
  manager w' = manager w ∧ redis_client w' = redis_client w ∧
  broker w' = broker w ∧ clock w' = clock w ∧ wire w' = wire w ++ evs.

Lemma only_sent_new_frames w w' evs : only_sent w w' evs → new_frames w w' = evs.
Proof.
  intros (_ & _ & _ & _ & Hwire). unfold new_frames.
  by rewrite Hwire, drop_app_length.
Qed.

Lemma only_sent_nil w : only_sent w w [].
Proof. repeat split. by rewrite (right_id_L [] (++)). Qed.

Lemma only_sent_trans w1 w2 w3 evs evs' :
  only_sent w1 w2 evs → only_sent w2 w3 evs' → only_sent w1 w3 (evs ++ evs').
Proof.
  intros (Hm & Hr & Hb & Hc & Hw) (Hm' & Hr' & Hb' & Hc' & Hw').
  repeat split; try congruence.
  by rewrite Hw', Hw, (assoc_L (++)).
Qed.

(** The guarded send of the three loops: the exception of a failed send is
    caught and logged. *)
Lemma guarded_send ws message event w :
  ∃ w', try_send E ws message event w = (Return tt, w')
        ∧ only_sent w w' [WsSend ws message (delivered ws)].
Proof.
  unfold try_send, try_except, ws_send, delivered, log.
  destruct (send_raises E ws) as [e|]; eexists; (split; [reflexivity|]);
    by repeat split.
Qed.

Lemma send_loop conns message event w :
  ∃ w', for_each conns (λ ws, try_send E ws message event) w = (Return tt, w')
        ∧ only_sent w w' (sends message conns).
Proof.
  revert w. induction conns as [|ws conns IH]; intros w; simpl.
  - exists w. split; [done|]. apply only_sent_nil.
  - destruct (guarded_send ws message event w) as (w1 & Hrun & Hsent).
    destruct (IH w1) as (w2 & Hrun' & Hsent').
    exists w2. split.
    + unfold bind. by rewrite Hrun.
    + apply (only_sent_trans _ _ _ _ _ Hsent Hsent').
Qed.

(** With no other handler running meanwhile, the loop over a user's list
    visits the list as it stands. *)
Lemma iterate_connections_undisturbed u message event w :
  ∃ w', iterate_connections E [] u 0 message event w = (Return [], w')
        ∧ only_sent w w' (sends message (connections_for u (manager w))).
Proof.
  destruct (send_loop (connections_for u (manager w)) message event w)
    as (w1 & Hrun & Hsent).
  exists w1. split; [|done].
  cbn [iterate_connections]. rewrite drop_0. unfold bind. by rewrite Hrun.
Qed.

Lemma send_personal_spec u message w :
  others E = [] →
  ∃ w', send_personal E u message w = (Return tt, w')
        ∧ only_sent w w' (sends message (connections_for u (manager w))).
Proof.
  intros Hquiet. unfold send_personal, bind, get_manager. rewrite Hquiet.
  destruct (active_connections (manager w) !! u) as [conns|] eqn:Hu.
  - destruct (iterate_connections_undisturbed u message "websocket_send_error" w)
      as (w1 & Hrun & Hsent).
    exists w1. by rewrite Hrun.
  - exists w. split; [done|]. unfold connections_for. rewrite Hu. apply only_sent_nil.
Qed.

(** What [broadcast_to_topic] sends: for each subscriber, one attempt per
    connection. *)
Definition topic_sends (topic : pykey) (message : json) (m : ConnectionManager) : list ws_event :=
  elements (subscribers_of topic m) ≫= λ u, sends message (connections_for u m).

Lemma iterate_subscribers_undisturbed t message m todo w :
  manager w = m →
  (∀ u, u ∈ todo → u ∈ subscribers_of t m) →
  ∃ w', iterate_subscribers E [] (size (subscribers_of t m)) todo t message w
        = (Return tt, w')
        ∧ only_sent w w' (todo ≫= λ u, sends message (connections_for u m)).
Proof.
  revert w. induction todo as [|u todo IH]; intros w Hm Hall;
    cbn [iterate_subscribers]; rewrite Hm, decide_True by done.
  - exists w. split; [done|]. apply only_sent_nil.
  - rewrite decide_True by (apply Hall; left).
    assert (Hstep : ∃ w1,
      match active_connections m !! u with
      | Some _ => iterate_connections E [] u 0 message "websocket_broadcast_error"
      | None => ret []
      end w = (Return [], w1)
      ∧ only_sent w w1 (sends message (connections_for u m))).
    { unfold connections_for.
      destruct (active_connections m !! u) as [conns|] eqn:Hu.
      - destruct (iterate_connections_undisturbed u message "websocket_broadcast_error" w)
          as (w1 & Hrun & Hsent).
        exists w1. split; [done|].
        unfold connections_for in Hsent. by rewrite Hm, Hu in Hsent.
      - exists w. split; [done|]. apply only_sent_nil. }
    destruct Hstep as (w1 & Hrun & Hsent).
    destruct (IH w1) as (w2 & Hrun' & Hsent').
    { destruct Hsent as (-> & _). done. }
    { intros u' Hu'. apply Hall. by right. }
    exists w2. split.
    + unfold bind. by rewrite Hrun.
    + apply (only_sent_trans _ _ _ _ _ Hsent Hsent').
Qed.

Lemma broadcast_to_topic_spec t message w :
  others E = [] →
  ∃ w', broadcast_to_topic E t message w = (Return tt, w')
        ∧ only_sent w w' (topic_sends t message (manager w)).
Proof.
  intros Hquiet. unfold broadcast_to_topic, bind, get_manager, topic_sends.
  rewrite Hquiet. unfold subscribers_of at 1.
  destruct (subscriptions (manager w) !! t) as [members|] eqn:Ht; cbn [default].
  - assert (Hmembers : subscribers_of t (manager w) = members).
    { unfold subscribers_of. by rewrite Ht. }
    rewrite <- Hmembers.
    apply iterate_subscribers_undisturbed; [done|].
    intros u. by rewrite elem_of_elements.
  - exists w. split; [done|]. rewrite elements_empty. apply only_sent_nil.
Qed.


(** What [broadcast_all] sends. *)
Definition all_sends (message : json) (m : ConnectionManager) : list ws_event :=
  (map_to_list (active_connections m)).*1 ≫= λ u, sends message (connections_for u m).

Lemma iterate_users_undisturbed message m todo w :
  manager w = m →
  ∃ w', iterate_users E [] (size (active_connections m)) todo message w
        = (Return tt, w')
        ∧ only_sent w w' (todo ≫= λ u, sends message (connections_for u m)).
Proof.
  revert w. induction todo as [|u todo IH]; intros w Hm;
    cbn [iterate_users]; rewrite Hm, decide_True by done.
  - exists w. split; [done|]. apply only_sent_nil.
  - rewrite bind_cons. unfold connections_for at 1.
    destruct (active_connections m !! u) as [conns|] eqn:Hu; cbn [default].
    + destruct (iterate_connections_undisturbed u message
                  "websocket_broadcast_all_error" w) as (w1 & Hrun & Hsent).
      unfold connections_for in Hsent. rewrite Hm, Hu in Hsent.
      destruct (IH w1) as (w2 & Hrun' & Hsent').
      { destruct Hsent as (-> & _). done. }
      exists w2. split.
      * unfold bind. by rewrite Hrun.
      * apply (only_sent_trans _ _ _ _ _ Hsent Hsent').
    + by apply IH.
Qed.

Lemma broadcast_all_spec message w :
  others E = [] →
  ∃ w', broadcast_all E message w = (Return tt, w')
        ∧ only_sent w w' (all_sends message (manager w)).
Proof.
  intros Hquiet. unfold broadcast_all, bind, get_manager, all_sends.
  rewrite Hquiet. by apply iterate_users_undisturbed.
Qed.

Lemma elem_of_sends ev message conns :
  ev ∈ sends message conns ↔ ∃ ws, ws ∈ conns ∧ ev = WsSend ws message (delivered ws).
Proof.
  unfold sends. rewrite list_elem_of_fmap. naive_solver.
Qed.

Lemma elem_of_topic_sends ev t message m :
  ev ∈ topic_sends t message m ↔
  ∃ u ws, u ∈ subscribers_of t m ∧ ws ∈ connections_for u m
          ∧ ev = WsSend ws message (delivered ws).
Proof.
  unfold topic_sends. rewrite list_elem_of_bind. split.
  - intros (u & Hev & Hu). apply elem_of_sends in Hev as (ws & Hws & ->).
    exists u, ws. by rewrite <- elem_of_elements.
  - intros (u & ws & Hu & Hws & ->). exists u. split.
    + apply elem_of_sends. eauto.
    + by apply elem_of_elements.
Qed.

End Router.

Definition announcement : json :=
  JObj [("type", JStr "announcement"); ("data", JObj [("title", JStr "hello")])].

(** alice on socket 1 and bob on socket 2, both following [swarm:7]. *)
Definition swarm_of_two : world :=
  run_manager_calls test_env
    [CallConnect 1 "alice"; CallConnect 2 "bob";
     CallSubscribe "alice" "swarm:7"; CallSubscribe "bob" "swarm:7"]
    initial_world.

(** While the first send of a delivery call is awaited, the handler of a
    third user, carol, receives her [subscribe] message for [swarm:7]. *)
Definition test_env_newcomer : env :=
  with_others [[CallSubscribe "carol" "swarm:7"]] test_env.

(** C1.  alice and bob follow [swarm:7], each on a healthy socket.  A third
    user subscribes to the topic while [broadcast_to_topic] awaits its first
    send: the loop over the subscribers then raises [RuntimeError] to the
    caller, and the socket of bob, a subscriber registered before and after
    the call, is never tried.  The loop runs over the very set the other
    handlers change, not over a copy of it. *)
Theorem broadcast_to_topic_aborts_when_the_subscribers_change :
  let E := test_env_newcomer in
  let w := swarm_of_two in
  let w' := exec (broadcast_to_topic E "swarm:7" announcement) w in
  elements (subscribers_of "swarm:7" (manager w)) = ["alice"; "bob"]
  ∧ connections_for "alice" (manager w) = [1]
  ∧ connections_for "bob" (manager w) = [2]
  ∧ send_raises E 2 = None
  ∧ result (broadcast_to_topic E "swarm:7" announcement) w = Raise RuntimeError
  ∧ new_frames w w' = [WsSend 1 announcement true]
  ∧ size (subscribers_of "swarm:7" (manager w')) = 3
  ∧ "bob" ∈ subscribers_of "swarm:7" (manager w')
  ∧ connections_for "bob" (manager w') = [2].
Proof. intros E w w'. repeat split; by vm_compute. Qed.

(** alice with a dead socket 13 registered before a healthy socket 2. *)
Definition alice_dead_and_live : world :=
  run_calls test_env [Register 13 "alice"; Register 2 "alice"] initial_world.

(** While the send on the dead socket 13 is awaited, the handler of that
    socket gets [WebSocketDisconnect] and calls [disconnect]. *)
Definition test_env_hangup : env :=
  with_others [[CallDisconnect 13 "alice"]] test_env.

(** C5.  alice has the dead socket 13 and the healthy socket 2.  The handler
    of 13 unregisters it while [send_personal] awaits the send on it; the
    send then raises, which is caught and logged, but the loop ends there:
    socket 2, still registered, gets no attempt.  The list iterator is at
    index 1 of a list that now has one element. *)
Theorem send_personal_skips_the_socket_after_a_removed_one :
  let E := test_env_hangup in
  let w := alice_dead_and_live in
  let w' := exec (send_personal E "alice" announcement) w in
  connections_for "alice" (manager w) = [13; 2]
  ∧ send_raises E 13 = Some RuntimeError
  ∧ send_raises E 2 = None
  ∧ result (send_personal E "alice" announcement) w = Return tt
  ∧ new_frames w w' = [WsSend 13 announcement false]
  ∧ connections_for "alice" (manager w') = [2].
Proof. intros E w w'. repeat split; by vm_compute. Qed.

(** ** The Redis bridge: [publish_via_redis] *)

(** [w'] differs from [w] at most in the cached Redis client and the log. *)
Definition same_sockets (w w' : world) : Prop :=
  manager w' = manager w ∧ wire w' = wire w ∧ broker w' = broker w ∧ clock w' = clock w.

(** The envelope [{"target": target, "payload": payload}]. *)
Definition envelope (target : string) (payload : json) : json :=
  JObj [("target", JStr target); ("payload", payload)].

Section Bridge.

Variable E : env.

(** [get_redis] never raises and touches neither registry nor sockets. *)
Lemma get_redis_spec w :
  ∃ r w', get_redis E w = (Return r, w') ∧ same_sockets w w'.
Proof.
  unfold get_redis, bind, init_redis, try_except, raise, log, ret.
  destruct (redis_client w) as [r|] eqn:Hr; simpl.
  { exists (Some r), w. by repeat split. }
  destruct (REDIS_URL E) as [[|c url]|]; simpl;
    try (eexists _, _; split; [reflexivity|]; by repeat split).
  destruct (redis_connect_raises E); simpl;
    eexists _, _; (split; [reflexivity|]); by repeat split.
Qed.

Lemma get_redis_run w :
  get_redis E w = (result (get_redis E) w, exec (get_redis E) w)
  ∧ same_sockets w (exec (get_redis E) w).
Proof.
  destruct (get_redis_spec w) as (r & w' & Hrun & Hsame).
  unfold result, exec. by rewrite Hrun.
Qed.

(** With a client in hand, [publish_via_redis] only talks to Redis. *)
Lemma publish_with_client target payload w r :
  result (get_redis E) w = Return (Some r) →
  publish_via_redis E target payload w =
  match redis_publish_raises E with
  | None => (Return tt, add_broker "verifiai:ws:broadcast" (envelope target payload)
                                   (exec (get_redis E) w))
  | Some _ => (Return tt, add_log Error "redis_publish_error" (exec (get_redis E) w))
  end.
Proof.
  intros Hsome. destruct (get_redis_run w) as [Hrun _].
  unfold publish_via_redis, try_except, bind.
  rewrite Hrun, Hsome. unfold redis_publish, envelope, log.
  by destruct (redis_publish_raises E).
Qed.

(** Without a client, [publish_via_redis] runs the fallback [direct], and
    catches what it raises. *)
Lemma publish_without_client target payload w :
  result (get_redis E) w = Return None →
  publish_via_redis E target payload w =
  try_except
    (if String.eqb target "all" then broadcast_all E payload
     else if String.prefix "user:" target then
       let* user_id := split_colon_1 target in send_personal E user_id payload
     else if String.prefix "topic:" target then
       let* topic := split_colon_1 target in broadcast_to_topic E topic payload
     else ret tt)
    (λ _, log Error "redis_publish_error")
    (exec (get_redis E) w).
Proof.
  intros Hnone. destruct (get_redis_run w) as [Hrun _].
  unfold publish_via_redis, try_except, bind.
  by rewrite Hrun, Hnone.
Qed.

End Bridge.

(** Two worlds show the same local delivery: the same frames on the
    sockets and the same registry. *)
Definition same_local_delivery (w1 w2 : world) : Prop :=
  wire w1 = wire w2 ∧ manager w1 = manager w2.

(** A computation is uniform when it looks neither at the log nor at the
    cached Redis client: started in two worlds that differ at most there,
    it gives the same result and ends in two such worlds. *)
Definition uniform {A} (c : M A) : Prop :=
  ∀ w1 w2, same_sockets w1 w2 →
    result c w2 = result c w1 ∧ same_sockets (exec c w1) (exec c w2).

Section Uniform.

Variable E : env.

Lemma uniform_ret {A} (a : A) : uniform (ret a).
Proof. by intros w1 w2 Hs. Qed.

Lemma uniform_bind {A B} (c : M A) (k : A → M B) :
  uniform c → (∀ a, uniform (k a)) → uniform (bind c k).
Proof.
  intros Hc Hk w1 w2 Hs. destruct (Hc w1 w2 Hs) as [Hr He].
  unfold result, exec, bind in *.
  destruct (c w1) as [[a|e] w1'], (c w2) as [[a'|e'] w2']; simpl in *; try done.
  - injection Hr as ->. by apply Hk.
  - by injection Hr as ->.
Qed.

Lemma uniform_try_except {A} (c : M A) (h : exn → M A) :
  uniform c → (∀ e, uniform (h e)) → uniform (try_except c h).
Proof.
  intros Hc Hh w1 w2 Hs. destruct (Hc w1 w2 Hs) as [Hr He].
  unfold result, exec, try_except in *.
  destruct (c w1) as [[a|e] w1'], (c w2) as [[a'|e'] w2']; simpl in *; try done.
  injection Hr as ->. by apply Hh.
Qed.

Lemma uniform_for_each {A} (l : list A) (body : A → M unit) :
  (∀ x, uniform (body x)) → uniform (for_each l body).
Proof.
  intros Hbody. induction l as [|x l IH]; simpl.
  - apply uniform_ret.
  - apply uniform_bind; [apply Hbody | intros _; apply IH].
Qed.

Lemma uniform_get_manager : uniform get_manager.
Proof. intros w1 w2 Hs. split; [|done]. unfold result, get_manager. simpl. by destruct Hs as [-> _]. Qed.

Lemma uniform_put_manager m : uniform (put_manager m).
Proof. intros w1 w2 (_ & Hw & Hb & Hc). by repeat split. Qed.

Lemma uniform_log lv event : uniform (log lv event).
Proof. intros w1 w2 (Hm & Hw & Hb & Hc). by repeat split. Qed.

Lemma uniform_ws_accept ws : uniform (ws_accept E ws).
Proof.
  intros w1 w2 (Hm & Hw & Hb & Hc). unfold result, exec, ws_accept.
  destruct (accept_raises E ws); repeat split; simpl; congruence.
Qed.

Lemma uniform_ws_send ws payload : uniform (ws_send E ws payload).
Proof.
  intros w1 w2 (Hm & Hw & Hb & Hc). unfold result, exec, ws_send.
  destruct (send_raises E ws); repeat split; simpl; congruence.
Qed.

Lemma uniform_try_send ws message event : uniform (try_send E ws message event).
Proof.
  apply uniform_try_except; [apply uniform_ws_send | intros _; apply uniform_log].
Qed.

Lemma uniform_connect ws u : uniform (connect E ws u).
Proof.
  unfold connect.
  apply uniform_bind; [apply uniform_ws_accept | intros _].
  apply uniform_bind; [apply uniform_get_manager | intros m].
  apply uniform_bind; [apply uniform_put_manager | intros _; apply uniform_log].
Qed.

Lemma uniform_disconnect ws u : uniform (disconnect ws u).
Proof.
  unfold disconnect.
  apply uniform_bind; [apply uniform_get_manager | intros m].
  apply uniform_bind; [apply uniform_put_manager | intros _; apply uniform_log].
Qed.

Lemma uniform_subscribe u t : uniform (subscribe u t).
Proof.
  unfold subscribe.
  apply uniform_bind; [apply uniform_get_manager | intros m].
  apply uniform_bind; [apply uniform_put_manager | intros _; apply uniform_log].
Qed.

Lemma uniform_unsubscribe u t : uniform (unsubscribe u t).
Proof.
  unfold unsubscribe.
  apply uniform_bind; [apply uniform_get_manager | intros m].
  destruct (subscriptions m !! t); [apply uniform_put_manager | apply uniform_ret].
Qed.

Lemma uniform_run_manager_call c : uniform (run_manager_call E c).
Proof.
  destruct c; cbn [run_manager_call].
  - apply uniform_connect.
  - apply uniform_disconnect.
  - apply uniform_subscribe.
  - apply uniform_unsubscribe.
Qed.

Lemma run_manager_calls_alike calls w1 w2 :
  same_sockets w1 w2 →
  same_sockets (run_manager_calls E calls w1) (run_manager_calls E calls w2).
Proof.
  revert w1 w2. induction calls as [|c calls IH]; intros w1 w2 Hs; [done|].
  cbn [run_manager_calls fold_left]. apply IH.
  by apply uniform_run_manager_call.
Qed.

(** What the other handlers do does not depend on the log either. *)
Lemma meanwhile_alike calls u w1 w2 :
  same_sockets w1 w2 →
  (meanwhile E calls u w2).2 = (meanwhile E calls u w1).2
  ∧ same_sockets (meanwhile E calls u w1).1 (meanwhile E calls u w2).1.
Proof.
  revert w1 w2. induction calls as [|c calls IH]; intros w1 w2 Hs; [done|].
  cbn [meanwhile].
  destruct (uniform_run_manager_call c w1 w2 Hs) as [_ Hs1].
  destruct Hs1 as (Hm & Hrest).
  rewrite Hm.
  destruct (active_connections (manager (exec (run_manager_call E c) w1)) !! u).
  - apply IH. by split.
  - split; [done|]. cbn [fst]. apply run_manager_calls_alike. by split.
Qed.

Lemma uniform_iterate_connections schedule u i message event :
  uniform (iterate_connections E schedule u i message event).
Proof.
  revert i. induction schedule as [|batch later IH]; intros i w1 w2 Hs;
    cbn [iterate_connections]; unfold result, exec;
    destruct Hs as (Hm & Hrest); rewrite Hm.
  - apply (uniform_bind
             (for_each (drop i (connections_for u (manager w1)))
                       (λ ws, try_send E ws message event))
             (λ _, ret [])); [|intros _; apply uniform_ret | by split].
    apply uniform_for_each. intros ws. apply uniform_try_send.
  - destruct (connections_for u (manager w1) !! i) as [ws|]; [|by split].
    destruct (meanwhile_alike batch u w1 w2) as [Hreg Hs1]; [by split|].
    destruct (meanwhile E batch u w1) as [w1' reg1], (meanwhile E batch u w2) as [w2' reg2].
    simpl in Hreg, Hs1. subst reg2.
    destruct (uniform_try_send ws message event w1' w2' Hs1) as [_ Hs2].
    destruct reg1; [by apply IH | by split].
Qed.

Lemma uniform_iterate_subscribers schedule size0 todo t message :
  uniform (iterate_subscribers E schedule size0 todo t message).
Proof.
  revert schedule. induction todo as [|u todo IH]; intros schedule w1 w2 Hs;
    cbn [iterate_subscribers]; unfold result, exec;
    pose proof Hs as (Hm & Hrest); rewrite Hm;
    destruct (decide (size (subscribers_of t (manager w1)) = size0)); try done.
  destruct (decide (u ∈ subscribers_of t (manager w1))); [|by apply IH].
  apply (uniform_bind
           (match active_connections (manager w1) !! u with
            | Some _ => iterate_connections E schedule u 0 message "websocket_broadcast_error"
            | None => ret schedule
            end)
           (λ rest, iterate_subscribers E rest size0 todo t message)); [| |done].
  - destruct (active_connections (manager w1) !! u);
      [apply uniform_iterate_connections | apply uniform_ret].
  - intros rest. apply IH.
Qed.

Lemma uniform_iterate_users schedule size0 todo message :
  uniform (iterate_users E schedule size0 todo message).
Proof.
  revert schedule. induction todo as [|u todo IH]; intros schedule w1 w2 Hs;
    cbn [iterate_users]; unfold result, exec;
    pose proof Hs as (Hm & Hrest); rewrite Hm;
    destruct (decide (size (active_connections (manager w1)) = size0)); try done.
  destruct (active_connections (manager w1) !! u); [|by apply IH].
  apply (uniform_bind
           (iterate_connections E schedule u 0 message "websocket_broadcast_all_error")
           (λ rest, iterate_users E rest size0 todo message)); [| |done].
  - apply uniform_iterate_connections.
  - intros rest. apply IH.
Qed.

Lemma uniform_send_personal u message : uniform (send_personal E u message).
Proof.
  unfold send_personal.
  apply uniform_bind; [apply uniform_get_manager | intros m].
  destruct (active_connections m !! u); [|apply uniform_ret].
  apply uniform_bind; [apply uniform_iterate_connections | intros _; apply uniform_ret].
Qed.

Lemma uniform_broadcast_to_topic t message : uniform (broadcast_to_topic E t message).
Proof.
  unfold broadcast_to_topic.
  apply uniform_bind; [apply uniform_get_manager | intros m].
  destruct (subscriptions m !! t); [apply uniform_iterate_subscribers | apply uniform_ret].
Qed.

Lemma uniform_broadcast_all message : uniform (broadcast_all E message).
Proof.
  unfold broadcast_all.
  apply uniform_bind; [apply uniform_get_manager | intros m].
  apply uniform_iterate_users.
Qed.

End Uniform.

Section Fallback.
Variable E : env.

(** The fallback runs the sender after [get_redis], which has touched the
    log and the client only, and catches what the sender raises: the local
    delivery is that of the sender run at once. *)
Lemma same_delivery_from (c : M unit) w :
  uniform c →
  same_local_delivery
    (try_except c (λ _, log Error "redis_publish_error") (exec (get_redis E) w)).2
    (exec c w).
Proof.
  intros Hc. destruct (get_redis_run E w) as [_ Hs].
  destruct (Hc w (exec (get_redis E) w) Hs) as [_ (Hm & Hw & _)].
  unfold exec, try_except in *.
  destruct (c (snd (get_redis E w))) as [[[]|e] w1]; simpl in *; by split.
Qed.

Lemma prefix_user u : String.prefix "user:" ("user:" +:+ u) = true.
Proof. by destruct u. Qed.

Lemma prefix_topic t : String.prefix "topic:" ("topic:" +:+ t) = true.
Proof. by destruct t. Qed.

Lemma fallback_all payload w :
  result (get_redis E) w = Return None →
  same_local_delivery (exec (publish_via_redis E "all" payload) w)
                      (exec (broadcast_all E payload) w).
Proof.
  intros Hnone.
  unfold exec at 1. rewrite (publish_without_client E _ _ _ Hnone).
  apply (same_delivery_from (broadcast_all E payload)), uniform_broadcast_all.
Qed.

Lemma fallback_user u payload w :
  result (get_redis E) w = Return None →
  same_local_delivery (exec (publish_via_redis E ("user:" +:+ u) payload) w)
                      (exec (send_personal E u payload) w).
Proof.
  intros Hnone.
  unfold exec at 1. rewrite (publish_without_client E _ _ _ Hnone).
  change (String.eqb ("user:" +:+ u) "all") with false.
  rewrite prefix_user.
  apply (same_delivery_from (send_personal E u payload)), uniform_send_personal.
Qed.

Lemma fallback_topic (t : string) payload w :
  result (get_redis E) w = Return None →
  same_local_delivery (exec (publish_via_redis E ("topic:" +:+ t) payload) w)
                      (exec (broadcast_to_topic E t payload) w).
Proof.
  intros Hnone.
  unfold exec at 1. rewrite (publish_without_client E _ _ _ Hnone).
  change (String.eqb ("topic:" +:+ t) "all") with false.
  change (String.prefix "user:" ("topic:" +:+ t)) with false.
  rewrite prefix_topic.
  apply (same_delivery_from (broadcast_to_topic E t payload)), uniform_broadcast_to_topic.
Qed.
End Fallback.

(** C4.  With a Redis client in hand, [publish_via_redis] puts nothing on
    any local socket and leaves the registry alone: the envelope goes to the
    broker channel only.  Without a client, what reaches the local sockets is
    what the direct call [broadcast_all], [send_personal] or
    [broadcast_to_topic] would have sent, and nothing is published. *)
Theorem publish_via_redis_delivers_by_one_path E payload w :
  (∀ target r,
     result (get_redis E) w = Return (Some r) →
     let w' := exec (publish_via_redis E target payload) w in
     wire w' = wire w ∧ manager w' = manager w
     ∧ (redis_publish_raises E = None →
        broker w' = broker w ++ [("verifiai:ws:broadcast", envelope target payload)]))
  ∧ (result (get_redis E) w = Return None →
     same_local_delivery (exec (publish_via_redis E "all" payload) w)
                         (exec (broadcast_all E payload) w)
     ∧ (∀ u, same_local_delivery
               (exec (publish_via_redis E ("user:" +:+ u) payload) w)
               (exec (send_personal E u payload) w))
     ∧ (∀ t : string, same_local_delivery
               (exec (publish_via_redis E ("topic:" +:+ t) payload) w)
               (exec (broadcast_to_topic E t payload) w))).
Proof.
  split.
  - intros target r Hsome w'.
    destruct (get_redis_run E w) as [_ (Hm & Hw & Hb & _)].
    unfold w', exec at 1 2 3. rewrite (publish_with_client E _ _ _ _ Hsome).
    destruct (redis_publish_raises E) as [e|]; simpl.
    + repeat split; [done | done | intros [=]].
    + repeat split; [done | done | intros _; by rewrite Hb].
  - intros Hnone. split; [by apply fallback_all|].
    split; [intros u; by apply fallback_user | intros t; by apply fallback_topic].
Qed.

(** A process that has a Redis client cached. *)
Definition alice_two_tabs_with_redis : world :=
  set_redis_client (Some tt) alice_two_tabs.

Lemma publish_via_redis_delivers_by_one_path_witness :
  (result (get_redis test_env) alice_two_tabs_with_redis = Return (Some tt)
   ∧ redis_publish_raises test_env = None
   ∧ wire (exec (publish_via_redis test_env "user:alice" announcement) alice_two_tabs_with_redis)
     = wire alice_two_tabs_with_redis
   ∧ broker (exec (publish_via_redis test_env "user:alice" announcement) alice_two_tabs_with_redis)
     = broker alice_two_tabs_with_redis
       ++ [("verifiai:ws:broadcast", envelope "user:alice" announcement)])
  ∧ (result (get_redis test_env) alice_two_tabs = Return None
     ∧ same_local_delivery
         (exec (publish_via_redis test_env "user:alice" announcement) alice_two_tabs)
         (exec (send_personal test_env "alice" announcement) alice_two_tabs)).
Proof.
  assert (Hsome : result (get_redis test_env) alice_two_tabs_with_redis = Return (Some tt))
    by (vm_compute; reflexivity).
  assert (Hpub : redis_publish_raises test_env = None) by reflexivity.
  assert (Hnone : result (get_redis test_env) alice_two_tabs = Return None)
    by (vm_compute; reflexivity).
  destruct (publish_via_redis_delivers_by_one_path test_env announcement
              alice_two_tabs_with_redis) as [Hbroker _].
  destruct (Hbroker "user:alice" tt Hsome) as (Hwire & _ & Hchan).
  destruct (publish_via_redis_delivers_by_one_path test_env announcement
              alice_two_tabs) as [_ Hfall].
  destruct (Hfall Hnone) as (_ & Huser & _).
  split.
  - split; [exact Hsome|]. split; [exact Hpub|]. split; [exact Hwire|]. exact (Hchan Hpub).
  - split; [exact Hnone|]. exact (Huser "alice").
Defined.

(** C10.  With a Redis client in hand whose [publish] raises,
    [publish_via_redis] returns normally after logging
    [redis_publish_error]; nothing reaches a local socket, the registry and
    the channel are as before.  The direct-delivery branch is not taken. *)
Theorem publish_via_redis_swallows_publish_failure E target payload w r e :
  result (get_redis E) w = Return (Some r) →
  redis_publish_raises E = Some e →
  let w' := exec (publish_via_redis E target payload) w in
  result (publish_via_redis E target payload) w = Return tt
  ∧ wire w' = wire w
  ∧ manager w' = manager w
  ∧ broker w' = broker w
  ∧ logs w' = logs (exec (get_redis E) w) ++ [(Error, "redis_publish_error")].
Proof.
  intros Hsome Hfail w'.
  destruct (get_redis_run E w) as [_ (Hm & Hw & Hb & _)].
  unfold w', result, exec at 1 2 3 4. rewrite (publish_with_client E _ _ _ _ Hsome).
  rewrite Hfail. simpl. by repeat split.
Qed.

Lemma publish_via_redis_swallows_publish_failure_witness :
  let w' := exec (publish_via_redis test_env_redis_down "user:alice" announcement) alice_two_tabs in
  result (get_redis test_env_redis_down) alice_two_tabs = Return (Some tt)
  ∧ redis_publish_raises test_env_redis_down = Some RedisConnectionError
  ∧ result (publish_via_redis test_env_redis_down "user:alice" announcement) alice_two_tabs
    = Return tt
  ∧ wire w' = wire alice_two_tabs.
Proof.
  intros w'.
  assert (Hsome : result (get_redis test_env_redis_down) alice_two_tabs = Return (Some tt))
    by (vm_compute; reflexivity).
  assert (Hfail : redis_publish_raises test_env_redis_down = Some RedisConnectionError)
    by reflexivity.
  destruct (publish_via_redis_swallows_publish_failure
              test_env_redis_down "user:alice" announcement alice_two_tabs tt
              RedisConnectionError Hsome Hfail) as (Hret & Hwire & _).
  split; [exact Hsome|]. split; [exact Hfail|]. split; [exact Hret|]. exact Hwire.
Defined.

(** ** The session gate: [verify_ws_token] and the handshake *)

(** [w'] differs from [w] at most in the log. *)
Definition only_logged (w w' : world) : Prop :=
  manager w' = manager w ∧ redis_client w' = redis_client w ∧ wire w' = wire w
  ∧ broker w' = broker w ∧ clock w' = clock w.

(** The credentials that fail verification: a malformed token, a bad
    signature, an expired token, or a token whose account is inactive. *)
Inductive rejected (E : env) (token : string) : Prop :=
  | token_malformed :
      jwt_decode E token = Raise DecodeError → rejected E token
  | signature_invalid :
      jwt_decode E token = Raise InvalidSignatureError → rejected E token
  | token_expired :
      jwt_decode E token = Raise ExpiredSignatureError → rejected E token
  | account_inactive claims user :
      jwt_decode E token = Return claims →
      user_by_clerk_id E (default JNull (dict_lookup "sub" claims)) = Return (Some user) →
      is_active user = false →
      rejected E token.

Section Gate.

Variable E : env.

Lemma verify_clerk_token_raised token e w :
  jwt_decode E token = Raise e →
  ∃ w', verify_clerk_token E token w = (Return None, w') ∧ only_logged w w'.
Proof.
  intros Hdec. unfold verify_clerk_token, try_except, bind, raise, log, ret.
  destruct (jwks_client E); rewrite ?Hdec; simpl.
  - destruct (decide (e = ExpiredSignatureError)); [|destruct (is_InvalidTokenError e)];
      simpl; eexists; (split; [reflexivity|]); by repeat split.
  - eexists; (split; [reflexivity|]); by repeat split.
Qed.

Lemma verify_clerk_token_decoded token claims w :
  jwt_decode E token = Return claims →
  ∃ w', verify_clerk_token E token w
        = (Return (if jwks_client E then Some claims else None), w')
        ∧ only_logged w w'.
Proof.
  intros Hdec. unfold verify_clerk_token, try_except, bind, raise, log, ret.
  destruct (jwks_client E); rewrite ?Hdec; simpl;
    eexists; (split; [reflexivity|]); by repeat split.
Qed.

Lemma verify_ws_token_rejected token w :
  rejected E token →
  ∃ w', verify_ws_token E token w = (Return None, w') ∧ only_logged w w'.
Proof.
  intros Hrej. unfold verify_ws_token, bind.
  destruct Hrej as [Hdec|Hdec|Hdec|claims user Hdec Hdb Hoff];
    try (destruct (verify_clerk_token_raised token _ w Hdec) as (w1 & -> & Hlog);
         by exists w1).
  destruct (verify_clerk_token_decoded token claims w Hdec) as (w1 & -> & Hlog).
  exists w1. split; [|done].
  destruct (jwks_client E); [|done].
  destruct claims as [|field claims]; [done|].
  remember (default JNull (dict_lookup "sub" (field :: claims))) as clerk_id.
  destruct (truthy clerk_id); [|done].
  cbn [negb]. rewrite Hdb. by rewrite Hoff.
Qed.

End Gate.

(** C6.  For a credential that fails verification, [verify_ws_token]
    returns [None]; the endpoint then only closes the socket with code 4001:
    no [accept], no frame, and the registry is what it was, whatever the
    client would have sent. *)
Theorem rejected_credential_is_closed_unregistered E ws token inbound w :
  rejected E token →
  let w' := exec (websocket_endpoint E ws token inbound) w in
  result (verify_ws_token E token) w = Return None
  ∧ manager w' = manager w
  ∧ wire w' = wire w ++ [WsClose ws 4001 "Invalid authentication token"]
  ∧ (close_raises E ws = None →
     result (websocket_endpoint E ws token inbound) w = Return Returned).
Proof.
  intros Hrej w'.
  destruct (verify_ws_token_rejected E token w Hrej) as (w1 & Hrun & Hm & _ & Hw & _).
  split; [unfold result; by rewrite Hrun|].
  unfold w', exec, result, websocket_endpoint, bind. rewrite Hrun.
  unfold ws_close, ret. destruct (close_raises E ws); simpl; rewrite Hm, Hw;
    by repeat split.
Qed.

Lemma rejected_credential_is_closed_unregistered_witness :
  let w' := exec (websocket_endpoint test_env 3 "expired-token" []) alice_two_tabs in
  jwt_decode test_env "expired-token" = Raise ExpiredSignatureError
  ∧ result (verify_ws_token test_env "expired-token") alice_two_tabs = Return None
  ∧ manager w' = manager alice_two_tabs
  ∧ wire w' = wire alice_two_tabs ++ [WsClose 3 4001 "Invalid authentication token"].
Proof.
  intros w'.
  assert (Hexp : jwt_decode test_env "expired-token" = Raise ExpiredSignatureError)
    by reflexivity.
  destruct (rejected_credential_is_closed_unregistered
              test_env 3 "expired-token" [] alice_two_tabs
              (token_expired test_env "expired-token" Hexp)) as (Hnone & Hm & Hw & _).
  split; [exact Hexp|]. split; [exact Hnone|]. split; [exact Hm|]. exact Hw.
Defined.

(** The four topics every connection is subscribed to. *)
Definition default_topics : list pykey :=
  [KStr "proofs"; KStr "agents"; KStr "settlements"; KStr "platform"].

(** The world once the handshake on [ws] for user [u] is through: the
    socket accepted and registered, the default subscriptions made, the
    welcome message sent (or attempted). *)
Definition registered (E : env) (ws : WebSocket) (u : string) (w : world) : world :=
  let w1 := exec (connect E ws u) w in
  let w2 := exec (subscribe u "proofs") w1 in
  let w3 := exec (subscribe u "agents") w2 in
  let w4 := exec (subscribe u "settlements") w3 in
  let w5 := exec (subscribe u "platform") w4 in
  add_wire (WsSend ws (welcome u (isoformat E (clock w5))) (delivered E ws)) (tick w5).

Section Handshake.

Variable E : env.

Lemma verify_ws_token_only_logged token w :
  only_logged w (exec (verify_ws_token E token) w).
Proof.
  unfold exec, verify_ws_token, bind.
  destruct (jwt_decode E token) as [claims|e] eqn:Hdec.
  - destruct (verify_clerk_token_decoded E token claims w Hdec) as (w1 & -> & Hlog).
    destruct (jwks_client E); [|done].
    destruct claims as [|field claims]; [done|].
    destruct (truthy _); simpl; [|done].
    destruct (user_by_clerk_id E _) as [[user|]|e]; simpl; try done.
    by destruct (is_active user).
  - by destruct (verify_clerk_token_raised E token e w Hdec) as (w1 & -> & Hlog).
Qed.

(** Running a computation gives its result and its final world. *)
Lemma run_eq {A} (c : M A) w : c w = (result c w, exec c w).
Proof. unfold result, exec. by destruct (c w). Qed.

Lemma bind_exec {A B} (c : M A) (k : A → M B) w a :
  result c w = Return a → bind c k w = k a (exec c w).
Proof. intros Hres. unfold bind. by rewrite (run_eq c w), Hres. Qed.

Lemma connect_accepted ws u w :
  accept_raises E ws = None →
  result (connect E ws u) w = Return tt
  ∧ wire (exec (connect E ws u) w) = wire w ++ [WsAccept ws]
  ∧ clock (exec (connect E ws u) w) = clock w.
Proof.
  intros Hacc. unfold result, exec, connect, bind, ws_accept. by rewrite Hacc.
Qed.

Lemma subscribe_frame u t w :
  wire (exec (subscribe u t) w) = wire w ∧ clock (exec (subscribe u t) w) = clock w.
Proof. done. Qed.

Lemma manager_add_wire ev w : manager (add_wire ev w) = manager w.
Proof. done. Qed.

Lemma manager_tick w : manager (tick w) = manager w.
Proof. done. Qed.

Lemma wire_add_wire ev w : wire (add_wire ev w) = wire w ++ [ev].
Proof. done. Qed.

Lemma wire_tick w : wire (tick w) = wire w.
Proof. done. Qed.

Lemma clock_subscribes u w t1 t2 t3 t4 :
  clock (exec (subscribe u t4) (exec (subscribe u t3)
          (exec (subscribe u t2) (exec (subscribe u t1) w)))) = clock w.
Proof. by rewrite !(proj2 (subscribe_frame _ _ _)). Qed.

Lemma utcnow_run w :
  utcnow_isoformat E w = (Return (isoformat E (clock w)), tick w).
Proof. done. Qed.

Lemma ws_send_run ws payload w :
  ws_send E ws payload w =
  (match send_raises E ws with Some e => Raise e | None => Return tt end,
   add_wire (WsSend ws payload (delivered E ws)) w).
Proof. unfold ws_send, delivered. by destruct (send_raises E ws). Qed.

Lemma endpoint_accepted ws token inbound user w :
  result (verify_ws_token E token) w = Return (Some user) →
  accept_raises E ws = None →
  websocket_endpoint E ws token inbound w =
  match send_raises E ws with
  | None => serve E ws (user_id_str user) inbound
              (registered E ws (user_id_str user) (exec (verify_ws_token E token) w))
  | Some e => (Raise e, registered E ws (user_id_str user)
                          (exec (verify_ws_token E token) w))
  end.
Proof.
  intros Hver Hacc. unfold websocket_endpoint.
  rewrite (bind_exec _ _ _ _ Hver). cbv beta iota.
  set (u := user_id_str user). set (w0 := exec (verify_ws_token E token) w).
  rewrite (bind_exec _ _ _ _ (proj1 (connect_accepted ws u w0 Hacc))).
  rewrite !(bind_exec _ _ _ _ (subscribe_returns _ _ _)).
  unfold bind at 1. rewrite utcnow_run.
  unfold bind at 1. rewrite ws_send_run.
  unfold registered. by destruct (send_raises E ws).
Qed.

Lemma registered_manager ws u w :
  manager (registered E ws u w) =
  manager (exec (subscribe u "platform")
          (exec (subscribe u "settlements")
          (exec (subscribe u "agents")
          (exec (subscribe u "proofs")
          (exec (connect E ws u) w))))).
Proof.
  unfold registered. cbv zeta. by rewrite manager_add_wire, manager_tick.
Qed.

Lemma registered_wire ws u w :
  accept_raises E ws = None →
  wire (registered E ws u w) =
  wire w ++ [WsAccept ws; WsSend ws (welcome u (isoformat E (clock w))) (delivered E ws)].
Proof.
  intros Hacc. destruct (connect_accepted ws u w Hacc) as (_ & Hw & Hc).
  unfold registered. cbv zeta.
  rewrite wire_add_wire, wire_tick, clock_subscribes.
  rewrite !(proj1 (subscribe_frame _ _ _)).
  rewrite Hw, Hc. by rewrite <- (assoc_L (++)).
Qed.

Lemma registered_connections ws u u' w :
  accept_raises E ws = None →
  active_connections (manager (registered E ws u w)) !! u' =
  if decide (u = u')
  then Some (connections_for u (manager w) ++ [ws])
  else active_connections (manager w) !! u'.
Proof.
  intros Hacc. rewrite registered_manager.
  rewrite <- (connect_lookup E ws u u' w Hacc). done.
Qed.

Lemma subscribers_after_subscribe u t t' w :
  subscribers_of t' (manager (exec (subscribe u t) w)) =
  if decide (t = t')
  then subscribers_of t' (manager w) ∪ {[u]}
  else subscribers_of t' (manager w).
Proof.
  unfold subscribers_of at 1. rewrite subscribe_lookup.
  by case_decide; subst.
Qed.

Lemma registered_subscribers ws u t w :
  subscribers_of t (manager (registered E ws u w)) =
  if bool_decide (t ∈ default_topics)
  then subscribers_of t (manager w) ∪ {[u]}
  else subscribers_of t (manager w).
Proof.
  rewrite registered_manager, !subscribers_after_subscribe.
  assert (Hbase : subscribers_of t (manager (exec (connect E ws u) w))
                  = subscribers_of t (manager w)).
  { unfold subscribers_of. by rewrite connect_subscriptions. }
  rewrite Hbase. unfold default_topics.
  repeat case_decide; subst; try done;
    (case_bool_decide as Hin; [try done | try (exfalso; apply Hin; set_solver)]).
  exfalso. set_solver.
Qed.

End Handshake.

(** ** The message loop only adds to the wire *)

(** A computation that never takes a frame back. *)
Definition appends {A} (c : M A) : Prop :=
  ∀ w, wire w `prefix_of` wire (exec c w).

Lemma appends_ret {A} (a : A) : appends (ret a).
Proof. intros w. done. Qed.

Lemma appends_raise {A} e : appends (@raise A e).
Proof. intros w. done. Qed.

Lemma appends_log lv event : appends (log lv event).
Proof. intros w. done. Qed.

Lemma appends_bind {A B} (c : M A) (k : A → M B) :
  appends c → (∀ a, appends (k a)) → appends (bind c k).
Proof.
  intros Hc Hk w. specialize (Hc w). unfold exec, bind in *.
  destruct (c w) as [[a|e] w1]; simpl in *; [|done].
  etrans; [exact Hc|]. apply Hk.
Qed.

Lemma appends_try_except {A} (body : M A) (handler : exn → M A) :
  appends body → (∀ e, appends (handler e)) → appends (try_except body handler).
Proof.
  intros Hc Hk w. specialize (Hc w). unfold exec, try_except in *.
  destruct (body w) as [[a|e] w1]; simpl in *; [done|].
  etrans; [exact Hc|]. apply Hk.
Qed.

Lemma appends_ws_send E ws payload : appends (ws_send E ws payload).
Proof.
  intros w. unfold exec, ws_send.
  destruct (send_raises E ws); simpl; by apply prefix_app_r.
Qed.

Lemma appends_utcnow E : appends (utcnow_isoformat E).
Proof. intros w. done. Qed.

Lemma appends_subscribe u t : appends (subscribe u t).
Proof. intros w. done. Qed.

Lemma appends_unsubscribe u t : appends (unsubscribe u t).
Proof.
  intros w. unfold exec, unsubscribe, bind, get_manager.
  by destruct (subscriptions (manager w) !! t).
Qed.

Lemma appends_disconnect ws u : appends (disconnect ws u).
Proof. intros w. done. Qed.

Lemma appends_py_get data key : appends (py_get data key).
Proof. intros w. by destruct data. Qed.

Lemma appends_hash_key j : appends (hash_key j).
Proof. intros w. by destruct j. Qed.

Lemma appends_handle_message E ws u data : appends (handle_message E ws u data).
Proof.
  unfold handle_message.
  apply appends_bind; [apply appends_py_get|]. intros action.
  repeat match goal with
         | |- appends (if ?b then _ else _) => destruct b
         | |- appends (bind _ _) => apply appends_bind; [|intros ?]
         | |- _ => first [ apply appends_py_get | apply appends_hash_key
                         | apply appends_utcnow | apply appends_ws_send
                         | apply appends_subscribe | apply appends_unsubscribe
                         | apply appends_ret ]
         end.
Qed.

Lemma appends_receive_loop E ws u inbound : appends (receive_loop E ws u inbound).
Proof.
  induction inbound as [|f inbound IH]; simpl; [apply appends_ret|].
  apply appends_bind; [destruct f; [apply appends_ret | apply appends_raise]|].
  intros data.
  apply appends_bind; [apply appends_handle_message | done].
Qed.

Lemma serve_nil E ws u w : serve E ws u [] w = (Return Awaiting, w).
Proof. done. Qed.

Lemma appends_serve E ws u inbound : appends (serve E ws u inbound).
Proof.
  apply appends_try_except; [apply appends_receive_loop|]. intros e.
  destruct (decide (e = WebSocketDisconnect)).
  - apply appends_bind; [apply appends_disconnect|]. intros _. apply appends_ret.
  - apply appends_bind; [apply appends_log|]. intros _.
    apply appends_bind; [apply appends_disconnect|]. intros _. apply appends_ret.
Qed.

(** C9 (as amended).  After the handshake of a valid credential the socket
    is registered last in the user's list, the user follows the four default
    topics in addition to what it followed before (so exactly those four
    when it followed nothing), and the first frame on the socket after
    [accept] is the [connected] message naming the four topics. *)
Theorem handshake_grants_default_subscriptions E ws token user w :
  result (verify_ws_token E token) w = Return (Some user) →
  accept_raises E ws = None →
  let u := user_id_str user in
  let w' := exec (websocket_endpoint E ws token []) w in
  connections_for u (manager w') = connections_for u (manager w) ++ [ws]
  ∧ (∀ t, u ∈ subscribers_of t (manager w') ↔
          t ∈ default_topics ∨ u ∈ subscribers_of t (manager w))
  ∧ ((∀ t, u ∉ subscribers_of t (manager w)) →
     ∀ t, u ∈ subscribers_of t (manager w') ↔ t ∈ default_topics)
  ∧ (∀ inbound, ∃ later,
       wire (exec (websocket_endpoint E ws token inbound) w) =
       wire w ++ [WsAccept ws;
                  WsSend ws (welcome u (isoformat E (clock w))) (delivered E ws)]
              ++ later).
Proof.
  intros Hver Hacc u w'.
  pose proof (verify_ws_token_only_logged E token w) as (Hm & _ & Hw & _ & Hc).
  set (w1 := exec (verify_ws_token E token) w) in *.
  assert (Hwire : wire (registered E ws u w1) =
                  wire w ++ [WsAccept ws;
                             WsSend ws (welcome u (isoformat E (clock w))) (delivered E ws)]).
  { rewrite (registered_wire E ws u w1 Hacc). by rewrite Hw, Hc. }
  assert (Hrun : ∀ inbound,
             websocket_endpoint E ws token inbound w =
             match send_raises E ws with
             | None => serve E ws u inbound (registered E ws u w1)
             | Some e => (Raise e, registered E ws u w1)
             end).
  { intros inbound. by apply endpoint_accepted. }
  assert (Hend : w' = registered E ws u w1).
  { unfold w', exec. rewrite Hrun.
    destruct (send_raises E ws); [done|]. by rewrite serve_nil. }
  assert (Hsubs : ∀ t, u ∈ subscribers_of t (manager w') ↔
                       t ∈ default_topics ∨ u ∈ subscribers_of t (manager w)).
  { intros t. rewrite Hend, registered_subscribers, Hm.
    case_bool_decide; set_solver. }
  split; [|split; [exact Hsubs|split]].
  - rewrite Hend. unfold connections_for at 1.
    rewrite (registered_connections E ws u u w1 Hacc), decide_True by done.
    cbn [default]. by rewrite Hm.
  - intros Hnone t. rewrite Hsubs. specialize (Hnone t). tauto.
  - intros inbound. unfold exec. rewrite Hrun.
    destruct (send_raises E ws) as [e|].
    + exists []. cbn [snd]. by rewrite Hwire, (right_id_L [] (++)).
    + destruct (appends_serve E ws u inbound (registered E ws u w1)) as [later Hlater].
      exists later. unfold exec in Hlater.
      by rewrite Hlater, Hwire, <- (assoc_L (++)).
Qed.

Lemma handshake_grants_default_subscriptions_witness :
  let w' := exec (websocket_endpoint test_env 1 "alice-token" []) initial_world in
  result (verify_ws_token test_env "alice-token") initial_world = Return (Some alice)
  ∧ accept_raises test_env 1 = None
  ∧ (∀ t, "alice" ∉ subscribers_of t (manager initial_world))
  ∧ connections_for "alice" (manager w') = [1]
  ∧ (∀ t, "alice" ∈ subscribers_of t (manager w') ↔ t ∈ default_topics).
Proof.
  intros w'.
  assert (Hver : result (verify_ws_token test_env "alice-token") initial_world
                 = Return (Some alice)) by (vm_compute; reflexivity).
  assert (Hacc : accept_raises test_env 1 = None) by reflexivity.
  assert (Hfresh : ∀ t, "alice" ∉ subscribers_of t (manager initial_world)).
  { intros t. unfold subscribers_of. simpl. rewrite lookup_empty. simpl. set_solver. }
  destruct (handshake_grants_default_subscriptions
              test_env 1 "alice-token" alice initial_world Hver Hacc)
    as (Hconns & _ & Hexact & _).
  split; [exact Hver|]. split; [exact Hacc|]. split; [exact Hfresh|].
  split; [exact Hconns|]. exact (Hexact Hfresh).
Defined.

(** alice has one tab open and, on top of the defaults, follows
    [swarm:42]. *)
Definition alice_follows_swarm : world :=
  exec (websocket_endpoint test_env 1 "alice-token"
          [Recv (JObj [("action", JStr "subscribe"); ("topic", JStr "swarm:42")])])
       initial_world.

(** C9, counterexample.  alice opens a second tab with a valid credential
    while her first tab follows [swarm:42]: after the registration she is
    subscribed to a fifth topic, not to exactly the four defaults. *)
Lemma second_tab_keeps_earlier_subscriptions :
  let w' := exec (websocket_endpoint test_env 2 "alice-token" []) alice_follows_swarm in
  result (verify_ws_token test_env "alice-token") alice_follows_swarm = Return (Some alice)
  ∧ connections_for "alice" (manager w') = [1; 2]
  ∧ ¬ (∀ t, "alice" ∈ subscribers_of t (manager w') ↔ t ∈ default_topics).
Proof.
  intros w'. split; [by vm_compute|]. split; [by vm_compute|].
  intros Hexact.
  assert (Hin : "alice" ∈ subscribers_of "swarm:42" (manager w')).
  { apply (bool_decide_unpack _). vm_compute. exact I. }
  apply Hexact in Hin. revert Hin. apply (bool_decide_unpack _). vm_compute. exact I.
Qed.

(** ** The message loop: unknown actions and malformed frames *)



Section Loop.

Variable E : env.


Lemma serve_step ws u data rest w w1 :
  handle_message E ws u data w = (Return tt, w1) →
  serve E ws u (Recv data :: rest) w = serve E ws u rest w1.
Proof.
  intros Hstep. unfold serve, try_except. simpl.
  unfold bind at 1. simpl. unfold bind at 1. by rewrite Hstep.
Qed.


End Loop.


(** alice with one tab open, its handler waiting for a frame. *)
Definition alice_one_tab : world :=
  exec (websocket_endpoint test_env 1 "alice-token" []) initial_world.



(** * Further properties of the code *)

(** ** The router, continued *)

Lemma elem_of_all_sends E ev message m :
  ev ∈ all_sends E message m ↔
  ∃ u ws, ws ∈ connections_for u m ∧ ev = WsSend ws message (delivered E ws).
Proof.
  unfold all_sends. rewrite list_elem_of_bind. split.
  - intros (u & Hev & _). apply elem_of_sends in Hev as (ws & Hws & ->). eauto.
  - intros (u & ws & Hws & ->). exists u. split; [apply elem_of_sends; eauto|].
    unfold connections_for in Hws.
    destruct (active_connections m !! u) as [conns|] eqn:Hu; simpl in Hws.
    + apply list_elem_of_fmap. exists (u, conns). split; [done|].
      by apply elem_of_map_to_list.
    + by apply elem_of_nil in Hws.
Qed.

(** A loop over a user without a socket sends nothing and waits for
    nothing, whoever else is ready to run. *)
Lemma iterate_connections_none E schedule u message event w :
  connections_for u (manager w) = [] →
  ∃ rest, iterate_connections E schedule u 0 message event w = (Return rest, w).
Proof.
  intros Hnone. destruct schedule as [|batch later]; cbn [iterate_connections];
    rewrite Hnone; by eexists.
Qed.

Lemma iterate_subscribers_none E schedule todo t message w :
  (∀ u, u ∈ subscribers_of t (manager w) → connections_for u (manager w) = []) →
  iterate_subscribers E schedule (size (subscribers_of t (manager w))) todo t message w
  = (Return tt, w).
Proof.
  intros Hnone. revert schedule.
  induction todo as [|u todo IH]; intros schedule; cbn [iterate_subscribers];
    rewrite decide_True by done; [done|].
  destruct (decide (u ∈ subscribers_of t (manager w))) as [Hu|_]; [|apply IH].
  unfold bind.
  destruct (active_connections (manager w) !! u).
  - destruct (iterate_connections_none E schedule u message
                "websocket_broadcast_error" w (Hnone u Hu)) as (rest & ->).
    apply IH.
  - apply IH.
Qed.

(** X1.  When no other handler calls the manager while [broadcast_all] is
    suspended in a send, it returns normally, changes neither the registry
    nor the broker channel, and attempts the message once on every
    connection of every registered user and on nothing else. *)
Theorem broadcast_all_reaches_every_connection E e w :
  others E = [] →
  let w' := exec (broadcast_all E e) w in
  result (broadcast_all E e) w = Return tt
  ∧ manager w' = manager w
  ∧ broker w' = broker w
  ∧ (∀ u ws, ws ∈ connections_for u (manager w) →
             WsSend ws e (delivered E ws) ∈ new_frames w w')
  ∧ (∀ ev, ev ∈ new_frames w w' →
           ∃ u ws, ws ∈ connections_for u (manager w)
                   ∧ ev = WsSend ws e (delivered E ws)).
Proof.
  intros Hquiet w'.
  destruct (broadcast_all_spec E e w Hquiet) as (w1 & Hrun & Hsent).
  assert (w' = w1) as -> by (unfold w', exec; by rewrite Hrun).
  rewrite (only_sent_new_frames _ _ _ Hsent).
  split; [unfold result; by rewrite Hrun|].
  split; [apply Hsent|]. split; [apply Hsent|]. split.
  - intros u ws Hws. apply elem_of_all_sends. eauto.
  - intros ev Hev. by apply elem_of_all_sends.
Qed.

Lemma broadcast_all_reaches_every_connection_witness :
  let w' := exec (broadcast_all test_env announcement) alice_two_tabs in
  others test_env = []
  ∧ 2 ∈ connections_for "alice" (manager alice_two_tabs)
  ∧ WsSend 2 announcement (delivered test_env 2) ∈ new_frames alice_two_tabs w'
  ∧ WsSend 1 announcement true ∈ new_frames alice_two_tabs w'
  ∧ ∃ u ws, ws ∈ connections_for u (manager alice_two_tabs)
            ∧ WsSend 1 announcement true = WsSend ws announcement (delivered test_env ws).
Proof.
  intros w'.
  destruct (broadcast_all_reaches_every_connection test_env announcement alice_two_tabs
              eq_refl) as (_ & _ & _ & Hall & Honly).
  assert (Hconn : 2 ∈ connections_for "alice" (manager alice_two_tabs)).
  { apply (bool_decide_unpack _). vm_compute. exact I. }
  assert (Hev : WsSend 1 announcement true ∈ new_frames alice_two_tabs w').
  { vm_compute. constructor. }
  split; [reflexivity|].
  split; [exact Hconn|]. split; [exact (Hall "alice" 2 Hconn)|].
  split; [exact Hev|]. exact (Honly _ Hev).
Defined.





(** X16.  When user [u] has connections [a] and [b], the send on [a] raises
    and no other handler calls the manager during the call,
    [send_personal] returns normally and has attempted the send on [b],
    which went through if [b] is healthy. *)
Theorem undisturbed_send_personal_survives_a_failed_send E u a b message w e :
  others E = [] →
  a ∈ connections_for u (manager w) →
  b ∈ connections_for u (manager w) →
  send_raises E a = Some e →
  let w' := exec (send_personal E u message) w in
  result (send_personal E u message) w = Return tt
  ∧ WsSend a message false ∈ new_frames w w'
  ∧ WsSend b message (delivered E b) ∈ new_frames w w'
  ∧ (send_raises E b = None → WsSend b message true ∈ new_frames w w').
Proof.
  intros Hquiet Ha Hb Hfail w'.
  destruct (send_personal_spec E u message w Hquiet) as (w1 & Hrun & Hsent).
  assert (w' = w1) as -> by (unfold w', exec; by rewrite Hrun).
  rewrite (only_sent_new_frames _ _ _ Hsent).
  split; [unfold result; by rewrite Hrun|].
  split; [|split].
  - apply elem_of_sends. exists a. split; [done|].
    unfold delivered. by rewrite Hfail.
  - apply elem_of_sends. eauto.
  - intros Hok. apply elem_of_sends. exists b. split; [done|].
    unfold delivered. by rewrite Hok.
Qed.

Lemma undisturbed_send_personal_survives_a_failed_send_witness :
  let w' := exec (send_personal test_env "alice" announcement) alice_dead_and_live in
  others test_env = []
  ∧ connections_for "alice" (manager alice_dead_and_live) = [13; 2]
  ∧ send_raises test_env 13 = Some RuntimeError
  ∧ send_raises test_env 2 = None
  ∧ result (send_personal test_env "alice" announcement) alice_dead_and_live = Return tt
  ∧ WsSend 2 announcement true ∈ new_frames alice_dead_and_live w'.
Proof.
  intros w'.
  assert (Hconns : connections_for "alice" (manager alice_dead_and_live) = [13; 2]).
  { vm_compute. reflexivity. }
  assert (Ha : 13 ∈ connections_for "alice" (manager alice_dead_and_live)).
  { rewrite Hconns. constructor. }
  assert (Hb : 2 ∈ connections_for "alice" (manager alice_dead_and_live)).
  { rewrite Hconns. do 2 constructor. }
  assert (Hfail : send_raises test_env 13 = Some RuntimeError) by reflexivity.
  assert (Hok : send_raises test_env 2 = None) by reflexivity.
  destruct (undisturbed_send_personal_survives_a_failed_send
              test_env "alice" 13 2 announcement alice_dead_and_live RuntimeError
              eq_refl Ha Hb Hfail) as (Hret & _ & _ & Hdeliv).
  split; [reflexivity|].
  split; [exact Hconns|]. split; [exact Hfail|]. split; [exact Hok|].
  split; [exact Hret|]. exact (Hdeliv Hok).
Defined.




(** ** The registry, continued *)

(** X3.  [connect] either raises what [accept] raised and leaves the world
    exactly as it was, or returns normally with the socket appended to the
    user's list, every other user's list and every subscription
    untouched. *)
Theorem connect_registers_last_or_changes_nothing E ws u w :
  (∀ e, accept_raises E ws = Some e → connect E ws u w = (Raise e, w))
  ∧ (accept_raises E ws = None →
     let w' := exec (connect E ws u) w in
     result (connect E ws u) w = Return tt
     ∧ connections_for u (manager w') = connections_for u (manager w) ++ [ws]
     ∧ (∀ u', u' ≠ u →
              active_connections (manager w') !! u' = active_connections (manager w) !! u')
     ∧ subscriptions (manager w') = subscriptions (manager w)).
Proof.
  split; [intros e He; by apply connect_refused|].
  intros Hacc w'. split; [by apply connect_accepted|].
  split; [|split].
  - unfold connections_for at 1. unfold w'.
    rewrite (connect_lookup E ws u u w Hacc). by rewrite decide_True.
  - intros u' Hne. unfold w'. rewrite (connect_lookup E ws u u' w Hacc).
    by rewrite decide_False.
  - apply connect_subscriptions.
Qed.

(** A deployment in which the server refuses every upgrade. *)
Definition test_env_refusing : env :=
  {| accept_raises := λ _, Some RuntimeError;
     send_raises := send_raises test_env;
     close_raises := close_raises test_env;
     jwks_client := jwks_client test_env;
     jwt_decode := jwt_decode test_env;
     user_by_clerk_id := user_by_clerk_id test_env;
     REDIS_URL := REDIS_URL test_env;
     redis_connect_raises := redis_connect_raises test_env;
     redis_publish_raises := redis_publish_raises test_env;
     py_str := py_str test_env;
     isoformat := isoformat test_env;
     others := others test_env |}.

Lemma connect_registers_last_or_changes_nothing_witness :
  (accept_raises test_env_refusing 3 = Some RuntimeError
   ∧ connect test_env_refusing 3 "alice" alice_two_tabs = (Raise RuntimeError, alice_two_tabs))
  ∧ (accept_raises test_env 3 = None
     ∧ connections_for "alice" (manager (exec (connect test_env 3 "alice") alice_two_tabs))
       = connections_for "alice" (manager alice_two_tabs) ++ [3]
     ∧ "bob" ≠ "alice"
     ∧ active_connections (manager (exec (connect test_env 3 "alice") alice_two_tabs)) !! "bob"
       = active_connections (manager alice_two_tabs) !! "bob").
Proof.
  assert (Hno : accept_raises test_env_refusing 3 = Some RuntimeError) by reflexivity.
  assert (Hok : accept_raises test_env 3 = None) by reflexivity.
  assert (Hne : "bob" ≠ "alice") by discriminate.
  destruct (connect_registers_last_or_changes_nothing test_env_refusing 3 "alice" alice_two_tabs)
    as [Hraise _].
  destruct (connect_registers_last_or_changes_nothing test_env 3 "alice" alice_two_tabs)
    as [_ Hreg].
  destruct (Hreg Hok) as (_ & Hlast & Hother & _).
  split; [split; [exact Hno | exact (Hraise _ Hno)]|].
  split; [exact Hok|]. split; [exact Hlast|]. split; [exact Hne|]. exact (Hother "bob" Hne).
Defined.

(** X4.  [disconnect] of a socket that is not in the user's list (already
    removed, or a user without entry) returns normally and leaves the
    identity-to-connections mapping as it is, as long as the mapping holds
    no empty list. *)
Theorem disconnect_of_unregistered_socket_keeps_connections ws u w :
  no_empty_entry (manager w) →
  ws ∉ connections_for u (manager w) →
  result (disconnect ws u) w = Return tt
  ∧ active_connections (manager (exec (disconnect ws u) w)) = active_connections (manager w).
Proof.
  intros Hinv Hnot. split; [done|].
  apply map_eq. intros u'. rewrite disconnect_lookup.
  case_decide as Hu; [subst u'|done].
  unfold connections_for in Hnot. unfold remaining.
  destruct (active_connections (manager w) !! u) as [conns|] eqn:Hconns; [|done].
  simpl in Hnot. rewrite bool_decide_false by done.
  destruct conns as [|c conns]; [|done].
  by destruct (Hinv u [] Hconns).
Qed.

Lemma disconnect_of_unregistered_socket_keeps_connections_witness :
  no_empty_entry (manager alice_one_tab)
  ∧ (7 ∉ connections_for "alice" (manager alice_one_tab))
  ∧ active_connections (manager (exec (disconnect 7 "alice") alice_one_tab))
    = active_connections (manager alice_one_tab).
Proof.
  assert (Hinv : no_empty_entry (manager alice_one_tab)).
  { intros u conns. destruct (decide (u = "alice")) as [->|Hne].
    - by intros [= <-].
    - change (active_connections (manager alice_one_tab))
        with (<["alice" := [1]]> (∅ : gmap string (list WebSocket))).
      rewrite lookup_insert_ne by done. by rewrite lookup_empty. }
  assert (Hnot : 7 ∉ connections_for "alice" (manager alice_one_tab)).
  { apply (bool_decide_unpack _). vm_compute. exact I. }
  split; [exact Hinv|]. split; [exact Hnot|].
  exact (proj2 (disconnect_of_unregistered_socket_keeps_connections 7 "alice" alice_one_tab
                  Hinv Hnot)).
Defined.

(** X5.  [disconnect] for user [u] touches no other user: the connection
    list of every [u' ≠ u] and its membership in every topic are as
    before. *)
Theorem disconnect_leaves_other_users_alone ws u u' w :
  u' ≠ u →
  let w' := exec (disconnect ws u) w in
  active_connections (manager w') !! u' = active_connections (manager w) !! u'
  ∧ (∀ t, u' ∈ subscribers_of t (manager w') ↔ u' ∈ subscribers_of t (manager w)).
Proof.
  intros Hne w'. split.
  - unfold w'. rewrite disconnect_lookup. by rewrite decide_False.
  - intros t. by apply disconnect_keeps_other_subscribers.
Qed.

(** alice on socket 1 and bob on socket 2, each with the default topics. *)
Definition alice_and_bob : world :=
  exec (subscribe "bob" "platform")
       (exec (connect test_env 2 "bob") alice_one_tab).

Lemma disconnect_leaves_other_users_alone_witness :
  "bob" ≠ "alice"
  ∧ active_connections (manager (exec (disconnect 1 "alice") alice_and_bob)) !! "bob" = Some [2]
  ∧ "bob" ∈ subscribers_of "platform" (manager (exec (disconnect 1 "alice") alice_and_bob)).
Proof.
  assert (Hne : "bob" ≠ "alice") by discriminate.
  destruct (disconnect_leaves_other_users_alone 1 "alice" "bob" alice_and_bob Hne)
    as [Hconns Hsubs].
  split; [exact Hne|]. split.
  - etrans; [exact Hconns|]. vm_compute. reflexivity.
  - apply Hsubs. apply (bool_decide_unpack _). vm_compute. exact I.
Defined.

Lemma run_manager_call_keeps_topic E c w t :
  is_Some (subscriptions (manager w) !! t) →
  is_Some (subscriptions (manager (exec (run_manager_call E c) w)) !! t).
Proof.
  intros Hsome. destruct c as [ws u|ws u|u t'|u t']; cbn [run_manager_call].
  - by rewrite connect_subscriptions.
  - rewrite disconnect_subscriptions, lookup_fmap. by apply fmap_is_Some.
  - rewrite subscribe_lookup. case_decide; [eauto | done].
  - rewrite unsubscribe_lookup. case_decide; [subst; by apply fmap_is_Some | done].
Qed.

(** X6.  No call on the manager ever removes a topic: once
    [subscriptions] has an entry for a topic, the entry is still there after
    any sequence of [connect], [disconnect], [subscribe] and [unsubscribe]
    calls; [unsubscribe] of the only subscriber leaves the empty set
    behind. *)
Theorem topic_entries_are_never_removed E calls w t :
  (is_Some (subscriptions (manager w) !! t) →
   is_Some (subscriptions (manager (run_manager_calls E calls w)) !! t))
  ∧ (∀ u, subscriptions (manager w) !! t = Some {[u]} →
          subscriptions (manager (exec (unsubscribe u t) w)) !! t = Some ∅).
Proof.
  split.
  - revert w. induction calls as [|c calls IH]; intros w Hsome; [done|].
    cbn [run_manager_calls fold_left]. apply IH. by apply run_manager_call_keeps_topic.
  - intros u Hone. rewrite unsubscribe_lookup, decide_True by done.
    rewrite Hone. simpl. f_equal. set_solver.
Qed.

(** bob subscribes to a topic of his own on a fresh registry. *)
Definition bob_follows_swarm : world := exec (subscribe "bob" "swarm:7") initial_world.

Lemma topic_entries_are_never_removed_witness :
  let calls := [CallConnect 4 "bob"; CallUnsubscribe "bob" "swarm:7"; CallDisconnect 4 "bob"] in
  is_Some (subscriptions (manager bob_follows_swarm) !! KStr "swarm:7")
  ∧ is_Some (subscriptions (manager (run_manager_calls test_env calls bob_follows_swarm))
               !! KStr "swarm:7")
  ∧ subscriptions (manager bob_follows_swarm) !! KStr "swarm:7" = Some {["bob"]}
  ∧ subscriptions (manager (exec (unsubscribe "bob" "swarm:7") bob_follows_swarm))
      !! KStr "swarm:7" = Some ∅.
Proof.
  intros calls.
  assert (Hone : subscriptions (manager bob_follows_swarm) !! KStr "swarm:7" = Some {["bob"]}).
  { vm_compute. reflexivity. }
  assert (Hsome : is_Some (subscriptions (manager bob_follows_swarm) !! KStr "swarm:7")).
  { rewrite Hone. eauto. }
  destruct (topic_entries_are_never_removed test_env calls bob_follows_swarm (KStr "swarm:7"))
    as [Hkeep Hempty].
  split; [exact Hsome|]. split; [exact (Hkeep Hsome)|].
  split; [exact Hone|]. exact (Hempty "bob" Hone).
Defined.

(** X7.  Subscribing a user that has no connection yet is legal and takes
    effect when it connects: after [subscribe(u, t)] and a later
    [connect(ws, u)], a [broadcast_to_topic(t, e)] during which no other
    handler calls the manager attempts [e] on [ws]; and as long as no
    subscriber of a topic has a connection, a broadcast to it puts nothing
    on the wire. *)
Theorem subscription_made_before_connecting_is_served E ws u t e w :
  (accept_raises E ws = None →
   others E = [] →
   let w1 := exec (subscribe u t ;; connect E ws u) w in
   WsSend ws e (delivered E ws)
     ∈ new_frames w1 (exec (broadcast_to_topic E t e) w1))
  ∧ ((∀ u', u' ∈ subscribers_of t (manager w) → connections_for u' (manager w) = []) →
     new_frames w (exec (broadcast_to_topic E t e) w) = []).
Proof.
  split.
  - intros Hacc Hquiet w1.
    destruct (broadcast_to_topic_spec E t e w1 Hquiet) as (w2 & Hrun & Hsent).
    unfold exec at 1. rewrite Hrun. cbn [snd].
    rewrite (only_sent_new_frames _ _ _ Hsent).
    apply elem_of_topic_sends. exists u, ws.
    assert (Hw1 : w1 = exec (connect E ws u) (exec (subscribe u t) w)).
    { unfold w1. by rewrite exec_seq by apply subscribe_returns. }
    split; [|split; [|done]].
    + unfold subscribers_of. rewrite Hw1, connect_subscriptions.
      fold (subscribers_of t (manager (exec (subscribe u t) w))).
      rewrite subscribers_of_subscribe. set_solver.
    + unfold connections_for. rewrite Hw1.
      rewrite (connect_lookup E ws u u _ Hacc), decide_True by done.
      simpl. set_solver.
  - intros Hnone.
    assert (Hrun : broadcast_to_topic E t e w = (Return tt, w)).
    { unfold broadcast_to_topic, bind, get_manager.
      destruct (subscriptions (manager w) !! t) as [members|] eqn:Ht; [|done].
      assert (Hmembers : subscribers_of t (manager w) = members).
      { unfold subscribers_of. by rewrite Ht. }
      rewrite <- Hmembers. by apply iterate_subscribers_none. }
    unfold exec. rewrite Hrun. cbn [snd].
    unfold new_frames. by rewrite drop_all.
Qed.

Lemma subscription_made_before_connecting_is_served_witness :
  let w1 := exec (subscribe "bob" "swarm:7" ;; connect test_env 4 "bob") initial_world in
  accept_raises test_env 4 = None
  ∧ others test_env = []
  ∧ WsSend 4 announcement (delivered test_env 4)
      ∈ new_frames w1 (exec (broadcast_to_topic test_env "swarm:7" announcement) w1)
  ∧ (∀ u', u' ∈ subscribers_of "swarm:7" (manager bob_follows_swarm) →
           connections_for u' (manager bob_follows_swarm) = [])
  ∧ new_frames bob_follows_swarm
      (exec (broadcast_to_topic test_env "swarm:7" announcement) bob_follows_swarm) = [].
Proof.
  intros w1.
  assert (Hacc : accept_raises test_env 4 = None) by reflexivity.
  assert (Hnone : ∀ u', u' ∈ subscribers_of "swarm:7" (manager bob_follows_swarm) →
                        connections_for u' (manager bob_follows_swarm) = []).
  { intros u' _. unfold connections_for.
    change (active_connections (manager bob_follows_swarm))
      with (∅ : gmap string (list WebSocket)).
    by rewrite lookup_empty. }
  destruct (subscription_made_before_connecting_is_served
              test_env 4 "bob" "swarm:7" announcement initial_world) as [Hserved _].
  destruct (subscription_made_before_connecting_is_served
              test_env 4 "bob" "swarm:7" announcement bob_follows_swarm) as [_ Hquiet].
  split; [exact Hacc|]. split; [reflexivity|]. split; [exact (Hserved Hacc eq_refl)|].
  split; [exact Hnone|]. exact (Hquiet Hnone).
Defined.

(** ** The message loop, continued *)

Definition pong (now : string) : json :=
  JObj [("type", JStr "pong"); ("timestamp", JStr now)].

Definition subscribed (kind : string) (topic : json) (now : string) : json :=
  JObj [("type", JStr kind); ("timestamp", JStr now); ("data", JObj [("topic", topic)])].

Section Actions.

Variable E : env.

Lemma subscribe_connections u t w :
  active_connections (manager (exec (subscribe u t) w)) = active_connections (manager w).
Proof. done. Qed.

Lemma unsubscribe_connections u t w :
  active_connections (manager (exec (unsubscribe u t) w)) = active_connections (manager w).
Proof.
  unfold exec, unsubscribe, bind, get_manager.
  by destruct (subscriptions (manager w) !! t).
Qed.

Lemma unsubscribe_frame u t w :
  wire (exec (unsubscribe u t) w) = wire w ∧ clock (exec (unsubscribe u t) w) = clock w.
Proof.
  unfold exec, unsubscribe, bind, get_manager.
  by destruct (subscriptions (manager w) !! t).
Qed.

Lemma handle_ping ws u fields w :
  eq_str (default JNull (dict_lookup "action" fields)) "ping" = true →
  handle_message E ws u (JObj fields) w =
  ws_send E ws (pong (isoformat E (clock w))) (tick w).
Proof.
  intros Hping. unfold handle_message, py_get, bind at 1, ret. by rewrite Hping.
Qed.

Lemma handle_subscribe ws u fields k w :
  let topic := default JNull (dict_lookup "topic" fields) in
  eq_str (default JNull (dict_lookup "action" fields)) "ping" = false →
  eq_str (default JNull (dict_lookup "action" fields)) "subscribe" = true →
  truthy topic = true →
  json_key topic = Some k →
  handle_message E ws u (JObj fields) w =
  ws_send E ws (subscribed "subscribed" topic (isoformat E (clock w)))
          (tick (exec (subscribe u k) w)).
Proof.
  intros topic Hping Hsub Htruthy Hkey.
  unfold handle_message, py_get, bind at 1, ret. rewrite Hping, Hsub.
  unfold bind at 1. fold topic. rewrite Htruthy.
  unfold hash_key, bind at 1. rewrite Hkey. unfold ret.
  rewrite (bind_exec _ _ _ _ (subscribe_returns u k w)).
  unfold bind at 1. by rewrite utcnow_run, (proj2 (subscribe_frame u k w)).
Qed.

Lemma handle_unsubscribe ws u fields k w :
  let topic := default JNull (dict_lookup "topic" fields) in
  eq_str (default JNull (dict_lookup "action" fields)) "ping" = false →
  eq_str (default JNull (dict_lookup "action" fields)) "subscribe" = false →
  eq_str (default JNull (dict_lookup "action" fields)) "unsubscribe" = true →
  truthy topic = true →
  json_key topic = Some k →
  handle_message E ws u (JObj fields) w =
  ws_send E ws (subscribed "unsubscribed" topic (isoformat E (clock w)))
          (tick (exec (unsubscribe u k) w)).
Proof.
  intros topic Hping Hsub Hunsub Htruthy Hkey.
  unfold handle_message, py_get, bind at 1, ret. rewrite Hping, Hsub, Hunsub.
  unfold bind at 1. fold topic. rewrite Htruthy.
  unfold hash_key, bind at 1. rewrite Hkey. unfold ret.
  rewrite (bind_exec _ _ _ _ (unsubscribe_returns u k w)).
  unfold bind at 1. by rewrite utcnow_run, (proj2 (unsubscribe_frame u k w)).
Qed.

Lemma handle_without_topic ws u fields w :
  let action := default JNull (dict_lookup "action" fields) in
  eq_str action "ping" = false →
  eq_str action "subscribe" = true ∨ eq_str action "unsubscribe" = true →
  truthy (default JNull (dict_lookup "topic" fields)) = false →
  handle_message E ws u (JObj fields) w = (Return tt, w).
Proof.
  intros action Hping Hact Hfalsy.
  unfold handle_message, py_get, bind at 1, ret. fold action. rewrite Hping.
  destruct (eq_str action "subscribe") eqn:Hsub.
  - unfold bind at 1. by rewrite Hfalsy.
  - destruct Hact as [Hact|Hact]; [done|]. rewrite Hact.
    unfold bind at 1. by rewrite Hfalsy.
Qed.

Lemma serve_reply ws u data rest w reply w0 :
  handle_message E ws u data w = ws_send E ws reply w0 →
  send_raises E ws = None →
  serve E ws u (Recv data :: rest) w = serve E ws u rest (add_wire (WsSend ws reply true) w0).
Proof.
  intros Hstep Hok. apply serve_step. rewrite Hstep.
  unfold ws_send. by rewrite Hok.
Qed.

End Actions.

Lemma eq_str_true j s : eq_str j s = true → j = JStr s.
Proof.
  destruct j; simpl; try done. intros Heq. by apply String.eqb_eq in Heq as ->.
Qed.

(** X8.  A [ping] is answered with a [pong] on the same socket; when the
    send goes through the registry is untouched and the loop goes on with
    the next frame. *)
Theorem ping_is_answered_with_pong E ws u fields rest w :
  eq_str (default JNull (dict_lookup "action" fields)) "ping" = true →
  send_raises E ws = None →
  let w1 := add_wire (WsSend ws (pong (isoformat E (clock w))) true) (tick w) in
  serve E ws u (Recv (JObj fields) :: rest) w = serve E ws u rest w1
  ∧ manager w1 = manager w.
Proof.
  intros Hping Hok w1. split; [|done].
  by apply serve_reply; [apply handle_ping|].
Qed.

Lemma ping_is_answered_with_pong_witness :
  send_raises test_env 1 = None
  ∧ serve test_env 1 "alice" [Recv (JObj [("action", JStr "ping")])] alice_one_tab
    = (Return Awaiting,
       add_wire (WsSend 1 (pong (isoformat test_env (clock alice_one_tab))) true)
                (tick alice_one_tab)).
Proof.
  assert (Hok : send_raises test_env 1 = None) by reflexivity.
  split; [exact Hok|].
  exact (proj1 (ping_is_answered_with_pong test_env 1 "alice" [("action", JStr "ping")] []
                  alice_one_tab eq_refl Hok)).
Defined.

(** X9.  A [subscribe] message with a usable topic subscribes the user and
    is confirmed with a [subscribed] message naming the topic; from then on
    a broadcast to that topic, during which no other handler calls the
    manager, reaches the socket (when it is registered for the user and its
    sends go through). *)
Theorem subscribe_message_subscribes_and_confirms E ws u fields k rest w :
  let topic := default JNull (dict_lookup "topic" fields) in
  eq_str (default JNull (dict_lookup "action" fields)) "subscribe" = true →
  truthy topic = true →
  json_key topic = Some k →
  send_raises E ws = None →
  let w1 := add_wire (WsSend ws (subscribed "subscribed" topic (isoformat E (clock w))) true)
                     (tick (exec (subscribe u k) w)) in
  serve E ws u (Recv (JObj fields) :: rest) w = serve E ws u rest w1
  ∧ subscribers_of k (manager w1) = subscribers_of k (manager w) ∪ {[u]}
  ∧ (others E = [] →
     ∀ e, ws ∈ connections_for u (manager w) →
          WsSend ws e true ∈ new_frames w1 (exec (broadcast_to_topic E k e) w1)).
Proof.
  intros topic Hsub Htruthy Hkey Hok w1.
  assert (Hping : eq_str (default JNull (dict_lookup "action" fields)) "ping" = false).
  { by rewrite (eq_str_true _ _ Hsub). }
  assert (Hm : manager w1 = manager (exec (subscribe u k) w)).
  { unfold w1. by rewrite manager_add_wire, manager_tick. }
  split; [|split].
  - by apply serve_reply; [apply handle_subscribe|].
  - by rewrite Hm, subscribers_of_subscribe.
  - intros Hquiet e Hws.
    destruct (broadcast_to_topic_spec E k e w1 Hquiet) as (w2 & Hrun & Hsent).
    unfold exec. rewrite Hrun. cbn [snd].
    rewrite (only_sent_new_frames _ _ _ Hsent).
    apply elem_of_topic_sends. exists u, ws. rewrite Hm. split; [|split].
    + rewrite subscribers_of_subscribe. set_solver.
    + unfold connections_for. by rewrite subscribe_connections.
    + unfold delivered. by rewrite Hok.
Qed.

Definition subscribe_swarm_42 : list (string * json) :=
  [("action", JStr "subscribe"); ("topic", JStr "swarm:42")].

Lemma subscribe_message_subscribes_and_confirms_witness :
  let w1 := exec (serve test_env 1 "alice" [Recv (JObj subscribe_swarm_42)]) alice_one_tab in
  send_raises test_env 1 = None
  ∧ others test_env = []
  ∧ 1 ∈ connections_for "alice" (manager alice_one_tab)
  ∧ nth_error (wire w1) 2
    = Some (WsSend 1 (subscribed "subscribed" (JStr "swarm:42")
                        (isoformat test_env (clock alice_one_tab))) true)
  ∧ WsSend 1 announcement true
      ∈ new_frames w1 (exec (broadcast_to_topic test_env "swarm:42" announcement) w1).
Proof.
  intros w1.
  assert (Hok : send_raises test_env 1 = None) by reflexivity.
  assert (Hws : 1 ∈ connections_for "alice" (manager alice_one_tab)).
  { apply (bool_decide_unpack _). vm_compute. exact I. }
  destruct (subscribe_message_subscribes_and_confirms test_env 1 "alice" subscribe_swarm_42
              (KStr "swarm:42") [] alice_one_tab eq_refl eq_refl eq_refl Hok)
    as (Hstep & _ & Hreach).
  assert (Hw1 : w1 = add_wire (WsSend 1 (subscribed "subscribed" (JStr "swarm:42")
                                 (isoformat test_env (clock alice_one_tab))) true)
                       (tick (exec (subscribe "alice" "swarm:42") alice_one_tab))).
  { unfold w1, exec at 1. by rewrite Hstep. }
  split; [exact Hok|]. split; [reflexivity|]. split; [exact Hws|]. split; [by vm_compute|].
  rewrite Hw1. exact (Hreach eq_refl announcement Hws).
Defined.

(** X10.  An [unsubscribe] message with a usable topic takes the user out
    of the topic's subscribers, default topic or not, and is confirmed with
    an [unsubscribed] message. *)
Theorem unsubscribe_message_unsubscribes_and_confirms E ws u fields k rest w :
  let topic := default JNull (dict_lookup "topic" fields) in
  eq_str (default JNull (dict_lookup "action" fields)) "unsubscribe" = true →
  truthy topic = true →
  json_key topic = Some k →
  send_raises E ws = None →
  let w1 := add_wire (WsSend ws (subscribed "unsubscribed" topic (isoformat E (clock w))) true)
                     (tick (exec (unsubscribe u k) w)) in
  serve E ws u (Recv (JObj fields) :: rest) w = serve E ws u rest w1
  ∧ subscribers_of k (manager w1) = subscribers_of k (manager w) ∖ {[u]}
  ∧ active_connections (manager w1) = active_connections (manager w).
Proof.
  intros topic Hunsub Htruthy Hkey Hok w1.
  pose proof (eq_str_true _ _ Hunsub) as Haction.
  assert (Hm : manager w1 = manager (exec (unsubscribe u k) w)).
  { unfold w1. by rewrite manager_add_wire, manager_tick. }
  split; [|split].
  - apply serve_reply; [|done].
    apply handle_unsubscribe; try done; by rewrite Haction.
  - by rewrite Hm, subscribers_of_unsubscribe.
  - by rewrite Hm, unsubscribe_connections.
Qed.

Lemma unsubscribe_message_unsubscribes_and_confirms_witness :
  let frame := [("action", JStr "unsubscribe"); ("topic", JStr "platform")] in
  let w1 := exec (serve test_env 1 "alice" [Recv (JObj frame)]) alice_one_tab in
  send_raises test_env 1 = None
  ∧ "alice" ∈ subscribers_of "platform" (manager alice_one_tab)
  ∧ subscribers_of "platform" (manager w1)
    = subscribers_of "platform" (manager alice_one_tab) ∖ {["alice"]}.
Proof.
  intros frame w1.
  assert (Hok : send_raises test_env 1 = None) by reflexivity.
  destruct (unsubscribe_message_unsubscribes_and_confirms test_env 1 "alice" frame
              (KStr "platform") [] alice_one_tab eq_refl eq_refl eq_refl Hok)
    as (Hstep & Hsubs & _).
  split; [exact Hok|]. split.
  - apply (bool_decide_unpack _). vm_compute. exact I.
  - unfold w1, exec at 1. rewrite Hstep. exact Hsubs.
Defined.

(** X11.  A [subscribe] or [unsubscribe] message whose topic is missing,
    null or empty is ignored: no reply of any kind, no change to the world,
    and the loop goes on with the next frame. *)
Theorem message_without_topic_is_silently_ignored E ws u fields rest w :
  let action := default JNull (dict_lookup "action" fields) in
  eq_str action "subscribe" = true ∨ eq_str action "unsubscribe" = true →
  truthy (default JNull (dict_lookup "topic" fields)) = false →
  serve E ws u (Recv (JObj fields) :: rest) w = serve E ws u rest w.
Proof.
  intros action Hact Hfalsy. apply serve_step.
  apply handle_without_topic; [|done|done].
  destruct Hact as [Hact|Hact]; unfold action in Hact;
    by rewrite (eq_str_true _ _ Hact).
Qed.

Lemma message_without_topic_is_silently_ignored_witness :
  serve test_env 1 "alice" [Recv (JObj [("action", JStr "subscribe")])] alice_one_tab
  = (Return Awaiting, alice_one_tab)
  ∧ serve test_env 1 "alice"
      [Recv (JObj [("action", JStr "unsubscribe"); ("topic", JStr "")])] alice_one_tab
    = (Return Awaiting, alice_one_tab).
Proof.
  split.
  - exact (message_without_topic_is_silently_ignored test_env 1 "alice"
             [("action", JStr "subscribe")] [] alice_one_tab (or_introl eq_refl) eq_refl).
  - exact (message_without_topic_is_silently_ignored test_env 1 "alice"
             [("action", JStr "unsubscribe"); ("topic", JStr "")] [] alice_one_tab
             (or_intror eq_refl) eq_refl).
Defined.

(** One turn of the loop: receive a frame and handle it. *)
Definition turn (E : env) (ws : WebSocket) (u : string) (f : frame) : M unit :=
  let* data := receive_json f in
  handle_message E ws u data.

Lemma receive_loop_raise E ws u f rest w e w1 :
  turn E ws u f w = (Raise e, w1) →
  receive_loop E ws u (f :: rest) w = (Raise e, w1).
Proof.
  unfold turn. cbn [receive_loop]. unfold bind.
  destruct (receive_json f w) as [[data|e'] w0]; cbv beta iota.
  - destruct (handle_message E ws u data w0) as [[[]|e1] w2]; [done|].
    by intros [= -> ->].
  - by intros [= -> ->].
Qed.

Lemma serve_raise E ws u inbound w e w1 :
  receive_loop E ws u inbound w = (Raise e, w1) →
  serve E ws u inbound w =
  (Return Returned,
   exec (disconnect ws u)
        (if decide (e = WebSocketDisconnect) then w1
         else add_log Error "websocket_error" w1)).
Proof.
  intros Hloop. unfold serve, try_except. rewrite Hloop.
  by destruct (decide (e = WebSocketDisconnect)).
Qed.

(** X12.  When receiving or handling a frame raises, the session is over
    whatever the client sent after it: the frames that follow are never
    looked at, the handler calls [disconnect] and returns, and it logs
    [websocket_error] unless the exception is [WebSocketDisconnect]. *)
Theorem raising_frame_ends_the_session E ws u f rest w e :
  result (turn E ws u f) w = Raise e →
  let w1 := exec (turn E ws u f) w in
  serve E ws u (f :: rest) w =
  (Return Returned,
   exec (disconnect ws u)
        (if decide (e = WebSocketDisconnect) then w1
         else add_log Error "websocket_error" w1)).
Proof.
  intros Hraise w1. apply serve_raise, receive_loop_raise.
  by rewrite (run_eq (turn E ws u f) w), Hraise.
Qed.

Definition subscribe_to_a_list : frame :=
  Recv (JObj [("action", JStr "subscribe"); ("topic", JArr [JStr "proofs"])]).

Lemma raising_frame_ends_the_session_witness :
  result (turn test_env 1 "alice" subscribe_to_a_list) alice_one_tab = Raise TypeError
  ∧ serve test_env 1 "alice"
      [subscribe_to_a_list; Recv (JObj [("action", JStr "ping")])] alice_one_tab
    = (Return Returned,
       exec (disconnect 1 "alice") (add_log Error "websocket_error" alice_one_tab))
  ∧ result (turn test_env 1 "alice" (RecvRaises WebSocketDisconnect)) alice_one_tab
    = Raise WebSocketDisconnect
  ∧ serve test_env 1 "alice"
      [RecvRaises WebSocketDisconnect; Recv (JObj [("action", JStr "ping")])] alice_one_tab
    = (Return Returned, exec (disconnect 1 "alice") alice_one_tab).
Proof.
  assert (H1 : result (turn test_env 1 "alice" subscribe_to_a_list) alice_one_tab
               = Raise TypeError) by (vm_compute; reflexivity).
  assert (H2 : result (turn test_env 1 "alice" (RecvRaises WebSocketDisconnect)) alice_one_tab
               = Raise WebSocketDisconnect) by (vm_compute; reflexivity).
  split; [exact H1|]. split.
  - exact (raising_frame_ends_the_session test_env 1 "alice" subscribe_to_a_list
             [Recv (JObj [("action", JStr "ping")])] alice_one_tab TypeError H1).
  - split; [exact H2|].
    exact (raising_frame_ends_the_session test_env 1 "alice" (RecvRaises WebSocketDisconnect)
             [Recv (JObj [("action", JStr "ping")])] alice_one_tab WebSocketDisconnect H2).
Defined.

(** ** The handshake, continued *)

(** X13.  The welcome message is sent outside the [try] block: when that
    send raises after a successful [accept], the endpoint raises the same
    exception without ever calling [disconnect], so the socket stays in the
    registry, subscribed to the default topics. *)
Theorem failed_welcome_leaves_the_socket_registered E ws token user inbound w e :
  result (verify_ws_token E token) w = Return (Some user) →
  accept_raises E ws = None →
  send_raises E ws = Some e →
  let u := user_id_str user in
  let w' := exec (websocket_endpoint E ws token inbound) w in
  result (websocket_endpoint E ws token inbound) w = Raise e
  ∧ connections_for u (manager w') = connections_for u (manager w) ++ [ws]
  ∧ (∀ t, t ∈ default_topics → u ∈ subscribers_of t (manager w'))
  ∧ new_frames w w'
    = [WsAccept ws; WsSend ws (welcome u (isoformat E (clock w))) false].
Proof.
  intros Hver Hacc Hfail u w'.
  pose proof (verify_ws_token_only_logged E token w) as (Hm & _ & Hw & _ & Hc).
  set (w0 := exec (verify_ws_token E token) w) in *.
  assert (Hrun : websocket_endpoint E ws token inbound w = (Raise e, registered E ws u w0)).
  { rewrite (endpoint_accepted E ws token inbound user w Hver Hacc). by rewrite Hfail. }
  assert (Hend : w' = registered E ws u w0) by (unfold w', exec; by rewrite Hrun).
  split; [unfold result; by rewrite Hrun|].
  rewrite Hend. split; [|split].
  - unfold connections_for at 1.
    rewrite (registered_connections E ws u u w0 Hacc), decide_True by done.
    cbn [default]. by rewrite Hm.
  - intros t Ht. rewrite registered_subscribers, bool_decide_true by done. set_solver.
  - unfold new_frames. rewrite (registered_wire E ws u w0 Hacc), Hw, Hc.
    rewrite drop_app_length. unfold delivered. by rewrite Hfail.
Qed.

Lemma failed_welcome_leaves_the_socket_registered_witness :
  let w' := exec (websocket_endpoint test_env 13 "alice-token" []) initial_world in
  result (verify_ws_token test_env "alice-token") initial_world = Return (Some alice)
  ∧ accept_raises test_env 13 = None
  ∧ send_raises test_env 13 = Some RuntimeError
  ∧ result (websocket_endpoint test_env 13 "alice-token" []) initial_world = Raise RuntimeError
  ∧ connections_for "alice" (manager w') = connections_for "alice" (manager initial_world) ++ [13]
  ∧ "alice" ∈ subscribers_of "platform" (manager w').
Proof.
  intros w'.
  assert (Hver : result (verify_ws_token test_env "alice-token") initial_world
                 = Return (Some alice)) by (vm_compute; reflexivity).
  assert (Hacc : accept_raises test_env 13 = None) by reflexivity.
  assert (Hfail : send_raises test_env 13 = Some RuntimeError) by reflexivity.
  destruct (failed_welcome_leaves_the_socket_registered test_env 13 "alice-token" alice []
              initial_world RuntimeError Hver Hacc Hfail) as (Hres & Hconns & Hsubs & _).
  split; [exact Hver|]. split; [exact Hacc|]. split; [exact Hfail|].
  split; [exact Hres|]. split; [exact Hconns|].
  apply (Hsubs (KStr "platform")). apply (bool_decide_unpack _). vm_compute. exact I.
Defined.

(** X14.  When [accept] raises for a valid credential the endpoint raises
    the same exception; nothing was registered, no subscription was made
    and nothing went over the wire. *)
Theorem refused_accept_registers_nothing E ws token user inbound w e :
  result (verify_ws_token E token) w = Return (Some user) →
  accept_raises E ws = Some e →
  let w' := exec (websocket_endpoint E ws token inbound) w in
  result (websocket_endpoint E ws token inbound) w = Raise e
  ∧ manager w' = manager w
  ∧ wire w' = wire w.
Proof.
  intros Hver Hacc w'.
  pose proof (verify_ws_token_only_logged E token w) as (Hm & _ & Hw & _).
  assert (Hrun : websocket_endpoint E ws token inbound w
                 = (Raise e, exec (verify_ws_token E token) w)).
  { unfold websocket_endpoint. rewrite (bind_exec _ _ _ _ Hver). cbv beta iota.
    unfold bind at 1. by rewrite (connect_refused E ws _ _ e Hacc). }
  unfold w', result, exec at 1 2. rewrite Hrun. by cbn [fst snd].
Qed.

Lemma refused_accept_registers_nothing_witness :
  result (verify_ws_token test_env_refusing "alice-token") alice_one_tab = Return (Some alice)
  ∧ accept_raises test_env_refusing 5 = Some RuntimeError
  ∧ result (websocket_endpoint test_env_refusing 5 "alice-token" []) alice_one_tab
    = Raise RuntimeError
  ∧ manager (exec (websocket_endpoint test_env_refusing 5 "alice-token" []) alice_one_tab)
    = manager alice_one_tab.
Proof.
  assert (Hver : result (verify_ws_token test_env_refusing "alice-token") alice_one_tab
                 = Return (Some alice)) by (vm_compute; reflexivity).
  assert (Hacc : accept_raises test_env_refusing 5 = Some RuntimeError) by reflexivity.
  destruct (refused_accept_registers_nothing test_env_refusing 5 "alice-token" alice []
              alice_one_tab RuntimeError Hver Hacc) as (Hres & Hm & _).
  split; [exact Hver|]. split; [exact Hacc|]. split; [exact Hres | exact Hm].
Defined.
